(** * A ReLU layer as a convex program: the notebook [examples/tf/ReLU Layers.ipynb]

    The notebook wraps the quadratic program

      minimize   ||z - Wtilde x - b||^2
      subject to z >= 0,  Wtilde = W

    in a Keras layer ([ReluLayer]), stacks two such layers and a dense layer
    into a sequential model and runs 25 Adam steps on synthetic data.

    Scalars ([float64] in the notebook) are modelled as real numbers;
    tensors are nested lists tagged with their rank. *)

From Stdlib Require Import Reals Lra List ZArith ClassicalEpsilon.
From stdpp Require Import gmap strings list.

(** ** Tensors *)

(** A tensor of rank 0 to 3, which is all the notebook builds: scalars (the
    loss), vectors ([b], [x]), matrices ([W], a batch of inputs) and stacks
    of matrices (the replicated weight). *)
Inductive tensor : Type :=
| T0 (r : R)
| T1 (v : list R)
| T2 (rows : list (list R))
| T3 (slices : list (list (list R))).

(** [tf.rank]. *)
Definition rank (t : tensor) : nat :=
  match t with T0 _ => 0 | T1 _ => 1 | T2 _ => 2 | T3 _ => 3 end.

(** [t.shape[0]], read only where the rank is at least 1. *)
Definition shape0 (t : tensor) : nat :=
  match t with
  | T0 _ => 0
  | T1 v => length v
  | T2 rows => length rows
  | T3 slices => length slices
  end.

Definition is_vector (n : nat) (v : list R) : Prop := length v = n.

Definition is_matrix (n m : nat) (M : list (list R)) : Prop :=
  length M = n ∧ Forall (is_vector m) M.

(** [has_shape t s]: the tensor [t] has shape [s].  A matrix with no rows has
    shape [(0, m)] for every [m]. *)
Definition has_shape (t : tensor) (s : list nat) : Prop :=
  match t, s with
  | T0 _, [] => True
  | T1 v, [n] => is_vector n v
  | T2 rows, [n; m] => is_matrix n m rows
  | T3 slices, [k; n; m] => length slices = k ∧ Forall (is_matrix n m) slices
  | _, _ => False
  end.

(** ** Linear algebra on lists *)

Definition vsum (v : list R) : R := fold_right Rplus 0%R v.

Definition dot (u v : list R) : R := vsum (zip_with Rmult u v).

(** [M @ x] *)
Definition matvec (M : list (list R)) (x : list R) : list R :=
  map (λ row, dot row x) M.

Definition vadd (u v : list R) : list R := zip_with Rplus u v.
Definition vsub (u v : list R) : list R := zip_with Rminus u v.

(** [cp.sum_squares] *)
Definition sum_squares (v : list R) : R := vsum (map (λ a, (a * a)%R) v).

(** The positive part, elementwise: [max(y, 0)]. *)
Definition relu (y : list R) : list R := map (λ a, Rmax a 0) y.

(** ** The convex program built in [ReluLayer.__init__] *)

(** [z = cp.Variable(output_dim)], [Wtilde = cp.Variable((output_dim, input_dim))] *)
Record variables : Type := Variables {
  z : list R;
  Wtilde : list (list R)
}.

(** [W = cp.Parameter((output_dim, input_dim))], [b = cp.Parameter(output_dim)],
    [x = cp.Parameter(input_dim)] *)
Record parameters : Type := Parameters {
  W : list (list R);
  b : list R;
  x : list R
}.

Section Problem.
Variables (input_dim output_dim : nat).

(** The declared shapes of the variables and of the parameters. *)
Definition variables_shaped (v : variables) : Prop :=
  is_vector output_dim (z v) ∧ is_matrix output_dim input_dim (Wtilde v).

Definition parameters_shaped (p : parameters) : Prop :=
  is_matrix output_dim input_dim (W p) ∧ is_vector output_dim (b p)
  ∧ is_vector input_dim (x p).

(** [cp.sum_squares(z - Wtilde @ x - b)] *)
Definition objective (p : parameters) (v : variables) : R :=
  sum_squares (vsub (vsub (z v) (matvec (Wtilde v) (x p))) (b p)).

(** [[z >= 0, Wtilde == W]] *)
Definition constraints (p : parameters) (v : variables) : Prop :=
  Forall (λ zi, (0 <= zi)%R) (z v) ∧ Wtilde v = W p.

Definition feasible (p : parameters) (v : variables) : Prop :=
  variables_shaped v ∧ constraints p v.

(** [v] solves [cp.Problem(cp.Minimize(objective), constraints)] at [p]. *)
Definition optimal (p : parameters) (v : variables) : Prop :=
  feasible p v ∧ ∀ v', feasible p v' → (objective p v <= objective p v')%R.

(** The closed form the notebook's first cell announces:
    [z = max(W x + b, 0)], with [Wtilde = W]. *)
Definition relu_solution (p : parameters) : variables :=
  Variables (relu (vadd (matvec (W p) (x p)) (b p))) (W p).
End Problem.

(** ** Exceptions *)

Inductive exn : Type :=
| AttributeError (name : string)   (* the object has no such attribute *)
| TypeError                        (* a value of the wrong kind *)
| IndexError
| ValueError                       (* shapes that do not fit *)
| ZeroDivisionError
| SolverError                      (* infeasible or unbounded program *)
| NotImplementedError.             (* a tensor of rank above 3 *)

Inductive result (A : Type) : Type :=
| Ok (a : A)
| Raise (e : exn).
Arguments Ok {A} a.
Arguments Raise {A} e.

Definition result_bind {A B} (r : result A) (k : A → result B) : result B :=
  match r with Ok a => k a | Raise e => Raise e end.

Fixpoint result_mapM {A B} (f : A → result B) (l : list A) : result (list B) :=
  match l with
  | [] => Ok []
  | a :: l' =>
      result_bind (f a) (λ b0, result_bind (result_mapM f l') (λ bs, Ok (b0 :: bs)))
  end.

(** ** The convex-layer adapter *)

#[global] Instance is_vector_dec n v : Decision (is_vector n v).
Proof. unfold is_vector. apply _. Defined.

#[global] Instance is_matrix_dec n m M : Decision (is_matrix n m M).
Proof. unfold is_matrix. apply _. Defined.

#[global] Instance parameters_shaped_dec i o p : Decision (parameters_shaped i o p).
Proof. unfold parameters_shaped. apply _. Defined.

(** Modelled from the spec: the solve inside the convex-layer adapter
    [CvxpyLayer] of [cvxpylayers.tensorflow], which the notebook imports and
    whose code is not part of it.  Section 4.1: called with concrete values
    for every parameter it returns values for the declared variables
    "computed by solving the instantiated convex program to optimality";
    an infeasible or unbounded instantiation is a failure.  So the solve
    returns some optimum when there is one and raises otherwise. *)
Definition solve (input_dim output_dim : nat) (p : parameters) : result variables :=
  match excluded_middle_informative (∃ v, optimal input_dim output_dim p v) with
  | left Hex => Ok (proj1_sig (constructive_indefinite_description _ Hex))
  | right _ => Raise SolverError
  end.

(** The three parameter values of one batch element. *)
Definition batch_parameters (Ws : list (list (list R))) (bs xs : list (list R))
  : list parameters :=
  zip_with (λ Wb x0, Parameters Wb.1 Wb.2 x0) (zip Ws bs) xs.

(** Modelled from the spec: calling [CvxpyLayer(problem, [W, b, x], [z])],
    for the problem of [ReluLayer.__init__] with the given dimensions, on
    values for [W], [b] and [x].  Section 4.1: the values have the declared
    shapes, "optionally with an added leading batch dimension applied
    independently per batch element"; it returns the values of the declared
    variables (here the list [[z]]); a "shape mismatch between supplied values
    and declared parameter/variable shapes" is a failure.  Section 4.2: "the
    adapter requires one parameter set per batch element", so either no value
    is batched or all three are, with one batch size. *)
Definition CvxpyLayer (input_dim output_dim : nat) (Wt bt xt : tensor)
  : result (list tensor) :=
  match Wt, bt, xt with
  | T2 W0, T1 b0, T1 x0 =>
      let p := Parameters W0 b0 x0 in
      if decide (parameters_shaped input_dim output_dim p) then
        result_bind (solve input_dim output_dim p) (λ v, Ok [T1 (z v)])
      else Raise ValueError
  | T3 Ws, T2 bs, T2 xs =>
      let ps := batch_parameters Ws bs xs in
      if decide (length Ws = length xs ∧ length bs = length xs
                 ∧ Forall (parameters_shaped input_dim output_dim) ps) then
        result_bind (result_mapM (solve input_dim output_dim) ps)
                    (λ vs, Ok [T2 (map z vs)])
      else Raise ValueError
  | _, _, _ => Raise ValueError
  end.

(** ** The state of a run *)

(** The seed of one random draw: derived from the global seed and the
    number of draws made since it was set, or (no global seed) picked by the
    system afresh. *)
Inductive seed_source : Type :=
| FromGlobalSeed (seed : Z) (draw : nat)
| FromEntropy (draw : nat).

(** The global random generator of [tf.random]. *)
Record generator : Type := Generator {
  global_seed : option Z;
  seeded_draws : nat;     (* draws since the global seed was set *)
  unseeded_draws : nat    (* draws made with no global seed *)
}.

(** What an attribute of an object holds. *)
Inductive value : Type :=
| VVariable (id : nat)                        (* a [tf.Variable], by identity *)
| VCvxpyLayer (input_dim output_dim : nat).   (* the adapter bound to the program *)

Record world : Type := World {
  tf_variables : list tensor;            (* the value of each [tf.Variable] *)
  objects : list (gmap string value);    (* the attributes of each object *)
  rng : generator;
  stdout : list tensor                   (* what was printed, oldest first *)
}.

Definition with_tf_variables (f : list tensor → list tensor) (w : world) : world :=
  World (f (tf_variables w)) (objects w) (rng w) (stdout w).
Definition with_objects (f : list (gmap string value) → list (gmap string value))
  (w : world) : world :=
  World (tf_variables w) (f (objects w)) (rng w) (stdout w).
Definition with_rng (f : generator → generator) (w : world) : world :=
  World (tf_variables w) (objects w) (f (rng w)) (stdout w).
Definition with_stdout (f : list tensor → list tensor) (w : world) : world :=
  World (tf_variables w) (objects w) (rng w) (f (stdout w)).

(** Computations that read and write the state and may raise; an exception
    leaves the state as it was when raised. *)
Definition M (A : Type) : Type := world → result A * world.

Definition ret {A} (a : A) : M A := λ w, (Ok a, w).
Definition raise {A} (e : exn) : M A := λ w, (Raise e, w).
Definition lift {A} (r : result A) : M A := λ w, (r, w).
Definition bind {A B} (c : M A) (k : A → M B) : M B :=
  λ w, match c w with
       | (Ok a, w') => k a w'
       | (Raise e, w') => (Raise e, w')
       end.

Notation "'let*' x ':=' c 'in' k" := (bind c (λ x, k))
  (at level 10, x binder, c at level 100, k at level 200).

(** [[c for _ in range(n)]] *)
Fixpoint comprehension {A} (n : nat) (c : M A) : M (list A) :=
  match n with
  | 0 => ret []
  | S n' => let* a := c in let* l := comprehension n' c in ret (a :: l)
  end.

(** [[f a for a in l]] *)
Fixpoint for_each {A B} (f : A → M B) (l : list A) : M (list B) :=
  match l with
  | [] => ret []
  | a :: l' => let* b0 := f a in let* bs := for_each f l' in ret (b0 :: bs)
  end.

(** [for _ in range(n): body] *)
Fixpoint for_range (n : nat) (body : M unit) : M unit :=
  match n with
  | 0 => ret tt
  | S n' => let* _ := body in for_range n' body
  end.

(** [self.name] *)
Definition getattr (self : nat) (name : string) : M value :=
  λ w, match objects w !! self ≫= (.!! name) with
       | Some v => (Ok v, w)
       | None => (Raise (AttributeError name), w)
       end.

(** [self.name = v] *)
Definition setattr (self : nat) (name : string) (v : value) : M unit :=
  λ w, (Ok tt, with_objects (alter (insert name v) self) w).

(** A new object with no attributes of its own. *)
Definition new_object : M nat :=
  λ w, (Ok (length (objects w)), with_objects (λ os, os ++ [∅]) w).

(** [tf.Variable(t)] *)
Definition new_variable (t : tensor) : M value :=
  λ w, (Ok (VVariable (length (tf_variables w))),
        with_tf_variables (λ vs, vs ++ [t]) w).

(** The current value of a variable, as [tf.stack] and the adapter read it. *)
Definition convert_to_tensor (v : value) : M tensor :=
  match v with
  | VVariable id =>
      λ w, match tf_variables w !! id with
           | Some t => (Ok t, w)
           | None => (Raise TypeError, w)
           end
  | VCvxpyLayer _ _ => raise TypeError
  end.

(** [print(t)] *)
Definition print (t : tensor) : M unit :=
  λ w, (Ok tt, with_stdout (λ out, out ++ [t]) w).

(** ** Stacking *)

Definition as_T0 (t : tensor) : option R :=
  match t with T0 r => Some r | _ => None end.
Definition as_T1 (t : tensor) : option (list R) :=
  match t with T1 v => Some v | _ => None end.
Definition as_T2 (t : tensor) : option (list (list R)) :=
  match t with T2 rows => Some rows | _ => None end.

(** [tf.stack] of tensors, along a new first axis.  The tensors must have one
    shape; an empty list gives the empty vector. *)
Definition stack (ts : list tensor) : result tensor :=
  match ts with
  | [] => Ok (T1 [])
  | T0 _ :: _ =>
      match mapM as_T0 ts with
      | Some rs => Ok (T1 rs)
      | None => Raise ValueError
      end
  | T1 v :: _ =>
      match mapM as_T1 ts with
      | Some vs =>
          if decide (Forall (λ u, length u = length v) vs)
          then Ok (T2 vs) else Raise ValueError
      | None => Raise ValueError
      end
  | T2 rows :: _ =>
      match mapM as_T2 ts with
      | Some ms =>
          if decide (Forall (λ u, map length u = map length rows) ms)
          then Ok (T3 ms) else Raise ValueError
      | None => Raise ValueError
      end
  | T3 _ :: _ => Raise NotImplementedError
  end.

(** The slices of a tensor along its first axis. *)
Definition unstack (t : tensor) : list tensor :=
  match t with
  | T0 _ => []
  | T1 v => map T0 v
  | T2 rows => map T1 rows
  | T3 slices => map T2 slices
  end.

(** [tf.stack] of variables: each is read, then the values are stacked. *)
Definition tf_stack (vs : list value) : M tensor :=
  let* ts := for_each convert_to_tensor vs in lift (stack ts).

(** ** [ReluLayer] *)

(** Calling what an attribute holds on three arguments: only the adapter is
    callable. *)
Definition invoke (f : value) (Wt bt xt : tensor) : M (list tensor) :=
  match f with
  | VCvxpyLayer input_dim output_dim => lift (CvxpyLayer input_dim output_dim Wt bt xt)
  | VVariable _ => raise TypeError
  end.

(** [out[i]] *)
Definition subscript (out : list tensor) (i : nat) : M tensor :=
  match out !! i with
  | Some t => ret t
  | None => raise IndexError
  end.

(** The first two arguments of the batched call, in the order Python
    evaluates them:
    [tf.stack([self.W for _ in tf.range(batch_size)])],
    [tf.stack([self.b for _ in tf.range(batch_size)])]. *)
Definition batched_arguments (self : nat) (batch_size : nat) : M (tensor * tensor) :=
  let* Ws := comprehension batch_size (getattr self "W") in
  let* Wt := tf_stack Ws in
  let* bs := comprehension batch_size (getattr self "b") in
  let* bt := tf_stack bs in
  ret (Wt, bt).

(** [ReluLayer.call(self, x)].  The callee is evaluated before its arguments:
    [self.cvxpy_layer] on the batched path, [self.layer] on the other. *)
Definition call (self : nat) (x : tensor) : M tensor :=
  if decide (rank x = 2) then
    let batch_size := shape0 x in
    let* layer := getattr self "cvxpy_layer" in
    let* '(Wt, bt) := batched_arguments self batch_size in
    let* out := invoke layer Wt bt x in
    subscript out 0
  else
    let* layer := getattr self "layer" in
    let* Wv := getattr self "W" in
    let* bv := getattr self "b" in
    let* Wt := convert_to_tensor Wv in
    let* bt := convert_to_tensor bv in
    let* out := invoke layer Wt bt x in
    subscript out 0.

(** ** Arithmetic on tensors *)

Definition tmap (f : R → R) (t : tensor) : tensor :=
  match t with
  | T0 r => T0 (f r)
  | T1 v => T1 (map f v)
  | T2 rows => T2 (map (map f) rows)
  | T3 slices => T3 (map (map (map f)) slices)
  end.

(** Scaling a tensor: [c * t]. *)
Definition scale (c : R) (t : tensor) : tensor := tmap (Rmult c) t.

(** [t ** 2] *)
Definition square (t : tensor) : tensor := tmap (λ a, (a * a)%R) t.

(** Two tensors of one rank whose first axes, rows and slices have the same
    lengths. *)
Definition same_shape (s t : tensor) : Prop :=
  match s, t with
  | T0 _, T0 _ => True
  | T1 u, T1 v => length u = length v
  | T2 a, T2 c => map length a = map length c
  | T3 a, T3 c => map (map length) a = map (map length) c
  | _, _ => False
  end.

#[global] Instance same_shape_dec s t : Decision (same_shape s t).
Proof. destruct s, t; simpl; apply _. Defined.

(** [s - t] for tensors of one shape.  Broadcasting between different shapes
    is left out: the notebook subtracts two tensors of shape (300, 1). *)
Definition tsub (s t : tensor) : result tensor :=
  if decide (same_shape s t) then
    Ok match s, t with
       | T0 a, T0 c => T0 (a - c)
       | T1 u, T1 v => T1 (zip_with Rminus u v)
       | T2 a, T2 c => T2 (zip_with (zip_with Rminus) a c)
       | T3 a, T3 c => T3 (zip_with (zip_with (zip_with Rminus)) a c)
       | _, _ => s
       end
  else Raise ValueError.

(** [tf.math.reduce_sum]: the sum of all entries. *)
Definition reduce_sum (t : tensor) : R :=
  match t with
  | T0 r => r
  | T1 v => vsum v
  | T2 rows => vsum (map vsum rows)
  | T3 slices => vsum (map (λ rows, vsum (map vsum rows)) slices)
  end.

(** [1 / n] for an integer [n], as Python 3 divides. *)
Definition reciprocal (n : nat) : result R :=
  if decide (n = 0) then Raise ZeroDivisionError else Ok (1 / INR n)%R.

(** The loss of the fourth cell, given [c = 1 / X.shape[0]] and the
    prediction [model(X)]: [c * tf.math.reduce_sum((Y - pred)**2)]. *)
Definition loss_of (c : R) (Y pred : tensor) : result tensor :=
  result_bind (tsub Y pred) (λ d, Ok (T0 (c * reduce_sum (square d)))).

(** [A[i][j]] *)
Definition entry (A : list (list R)) (i j : nat) : R := nth j (nth i A []) 0%R.

(** The mean squared error in the words of the specification: the sum over
    all entries of [(Y - P)] squared, divided by the number of rows. *)
Definition mean_squared_error (rows cols : nat) (Y P : list (list R)) : R :=
  (vsum (map (λ i, vsum (map (λ j, ((entry Y i j - entry P i j)
                                  * (entry Y i j - entry P i j))%R)
                           (seq 0 cols)))
            (seq 0 rows))
   / INR rows)%R.

(** ** Declaring the program *)

(** [cp.Variable(shape)] and [cp.Parameter(shape)]: cvxpy refuses a shape
    with a dimension that is not positive, with [ValueError]. *)
Definition cp_leaf (shape : list nat) : M unit :=
  if decide (Forall (λ d, d ≠ 0) shape) then ret tt else raise ValueError.

(** ** The notebook's cells *)

Section Notebook.
(** The [i]-th normal sample of the draw made with a given seed: the random
    kernel of [tf.random.normal], a fixed function of the seed. *)
Variable normal_sample : seed_source → nat → R.

(** The next seed of the global generator.  With a global seed, the seed
    of a draw is a function of it and of the number of draws since it was
    set; with none, each draw gets a seed of its own from the system. *)
Definition next_seed (g : generator) : seed_source * generator :=
  match global_seed g with
  | Some s =>
      (FromGlobalSeed s (seeded_draws g),
       Generator (Some s) (S (seeded_draws g)) (unseeded_draws g))
  | None =>
      (FromEntropy (unseeded_draws g),
       Generator None (seeded_draws g) (S (unseeded_draws g)))
  end.

(** [tf.random.set_seed(s)]: sets the global seed and restarts the count
    of draws. *)
Definition set_seed (s : Z) : M unit :=
  λ w, (Ok tt, with_rng (λ g, Generator (Some s) 0 (unseeded_draws g)) w).

(** The samples of one draw laid out in a given shape, row by row. *)
Definition normal_tensor (src : seed_source) (shape : list nat) : result tensor :=
  match shape with
  | [] => Ok (T0 (normal_sample src 0))
  | [n] => Ok (T1 (map (normal_sample src) (seq 0 n)))
  | [n; m] =>
      Ok (T2 (map (λ i, map (λ j, normal_sample src (i * m + j)) (seq 0 m))
                  (seq 0 n)))
  | [k; n; m] =>
      Ok (T3 (map (λ h, map (λ i, map (λ j, normal_sample src ((h * n + i) * m + j))
                                      (seq 0 m))
                            (seq 0 n))
                  (seq 0 k)))
  | _ => Raise NotImplementedError
  end.

(** [tf.random.normal(shape, dtype=tf.float64)], with no seed of its own. *)
Definition random_normal (shape : list nat) : M tensor :=
  λ w, let '(src, g) := next_seed (rng w) in
       (normal_tensor src shape, with_rng (λ _, g) w).

(** [ReluLayer.__init__(self, input_dim, output_dim)], returning the new
    object.  [super().__init__()] gives the object the attributes of the
    Keras base class, none of which is called [layer], [W], [b] or
    [cvxpy_layer]; they are left out.  The two variables and the three
    parameters of the program are declared, in the order of the source,
    after [self.W] and [self.b] are set and before the adapter is bound. *)
Definition ReluLayer (input_dim output_dim : nat) : M nat :=
  let* self := new_object in
  let* t := random_normal [output_dim; input_dim] in
  let* Wv := new_variable (scale (/ 1000) t) in
  let* _ := setattr self "W" Wv in
  let* t := random_normal [output_dim] in
  let* bv := new_variable (scale (/ 1000) t) in
  let* _ := setattr self "b" bv in
  let* _ := cp_leaf [output_dim] in                (* z *)
  let* _ := cp_leaf [output_dim; input_dim] in     (* Wtilde *)
  let* _ := cp_leaf [output_dim; input_dim] in     (* W *)
  let* _ := cp_leaf [output_dim] in                (* b *)
  let* _ := cp_leaf [input_dim] in                 (* x *)
  let* _ := setattr self "cvxpy_layer" (VCvxpyLayer input_dim output_dim) in
  ret self.

(** The weight and the bias a draw gives a new layer. *)
Definition initial_W (src : seed_source) (input_dim output_dim : nat)
  : list (list R) :=
  map (map (Rmult (/ 1000)))
      (map (λ i, map (λ j, normal_sample src (i * input_dim + j)) (seq 0 input_dim))
           (seq 0 output_dim)).

Definition initial_b (src : seed_source) (output_dim : nat) : list R :=
  map (Rmult (/ 1000)) (map (normal_sample src) (seq 0 output_dim)).

(** The state after [ReluLayer(input_dim, output_dim)]: two draws, two new
    variables, one new object. *)
Definition constructed (input_dim output_dim : nat) (w : world) : world :=
  let '(src1, g1) := next_seed (rng w) in
  let '(src2, g2) := next_seed g1 in
  let iW := length (tf_variables w) in
  World (tf_variables w
           ++ [T2 (initial_W src1 input_dim output_dim);
               T1 (initial_b src2 output_dim)])
        (objects w
           ++ [ <["cvxpy_layer" := VCvxpyLayer input_dim output_dim]>
                  (<["b" := VVariable (S iW)]> (<["W" := VVariable iW]> ∅)) ])
        g2 (stdout w).

(** The third cell: the seed, the model, the data.  The dense layer and the
    sequential model are built without a draw (Keras creates the weights of
    the dense layer when the model is first called). *)
Definition cell3 : M (nat * nat * tensor * tensor) :=
  let* _ := set_seed 0 in
  let* l1 := ReluLayer 20 20 in
  let* l2 := ReluLayer 20 20 in
  let* X := random_normal [300; 20] in
  let* Y := random_normal [300; 1] in
  ret (l1, l2, X, Y).

(** What the third cell leaves as data, if it returns. *)
Definition cell3_data (w : world) : option (tensor * tensor) :=
  match (cell3 w).1 with
  | Ok (_, _, X, Y) => Some (X, Y)
  | Raise _ => None
  end.

(** The draw made at position [k] after [tf.random.set_seed(0)]. *)
Definition seeded_normal (k : nat) (shape : list nat) : result tensor :=
  normal_tensor (FromGlobalSeed 0 k) shape.

Section Training.
(** The collaborators of the fourth cell whose code is outside the
    notebook: the call of the Keras dense layer [Dense(1)],
    [tape.gradient(loss, model.variables)] and
    [opt.apply_gradients(zip(grads, model.variables))]. *)
Variable dense : tensor → M tensor.
Variable tape_gradient : tensor → M (list tensor).
Variable apply_gradients : list tensor → M unit.

(** [model(X)] for [model = Sequential([l1, l2, Dense(1)])]: each layer is
    called on the output of the one before. *)
Definition model (l1 l2 : nat) (X : tensor) : M tensor :=
  let* h1 := call l1 X in
  let* h2 := call l2 h1 in
  dense h2.

(** The body of the loop of the fourth cell up to the gradients: the loss
    is computed and printed under the tape, then differentiated.
    [1 / X.shape[0]] is evaluated before [model(X)]. *)
Definition loss_and_gradients (l1 l2 : nat) (X Y : tensor) : M (list tensor) :=
  let* c := lift (reciprocal (shape0 X)) in
  let* pred := model l1 l2 X in
  let* loss := lift (loss_of c Y pred) in
  let* _ := print loss in
  tape_gradient loss.

(** The body of the loop: the gradients, then the optimizer's update. *)
Definition training_step (l1 l2 : nat) (X Y : tensor) : M unit :=
  let* grads := loss_and_gradients l1 l2 X Y in
  apply_gradients grads.

(** [for _ in range(25): ...] *)
Definition training_loop (l1 l2 : nat) (X Y : tensor) : M unit :=
  for_range 25 (training_step l1 l2 X Y).

(** The third and the fourth cell.  [opt = tf.keras.optimizers.Adam(1e-2)]
    is the optimizer behind [apply_gradients]. *)
Definition notebook : M unit :=
  let* '(l1, l2, X, Y) := cell3 in
  training_loop l1 l2 X Y.
End Training.
End Notebook.

(** ** A layer in a state *)

(** [relu_layer w self input_dim output_dim W0 b0]: in the state [w] the
    object [self] is a [ReluLayer] as its constructor leaves it, with weight
    [W0] and bias [b0] of the declared shapes. *)
Definition relu_layer (w : world) (self : nat) (input_dim output_dim : nat)
  (W0 : list (list R)) (b0 : list R) : Prop :=
  ∃ attrs iW ib,
    objects w !! self = Some attrs
    ∧ attrs !! "W" = Some (VVariable iW)
    ∧ attrs !! "b" = Some (VVariable ib)
    ∧ attrs !! "cvxpy_layer" = Some (VCvxpyLayer input_dim output_dim)
    ∧ attrs !! "layer" = None
    ∧ tf_variables w !! iW = Some (T2 W0)
    ∧ tf_variables w !! ib = Some (T1 b0)
    ∧ is_matrix output_dim input_dim W0
    ∧ is_vector output_dim b0.

(** What the layer is meant to compute on one input. *)
Definition relu_forward (W0 : list (list R)) (b0 x0 : list R) : list R :=
  relu (vadd (matvec W0 x0) b0).

(** The two layers of the model, as the optimizer must leave them for the
    next step to run. *)
Definition trainable (l1 l2 : nat) (w : world) : Prop :=
  ∃ W1 b1 W2 b2,
    relu_layer w l1 20 20 W1 b1 ∧ relu_layer w l2 20 20 W2 b2.

(** A collaborator that returns, with a result that meets [post], keeps the
    two layers what they are and prints nothing. *)
Definition well_behaved {A} (l1 l2 : nat) (c : M A) (post : A → Prop) : Prop :=
  ∀ w, trainable l1 l2 w →
       ∃ a w', c w = (Ok a, w') ∧ post a ∧ trainable l1 l2 w' ∧ stdout w' = stdout w.

(** The values of the weight and of the bias of a layer. *)
Definition layer_weights (w : world) (self : nat) : option (tensor * tensor) :=
  attrs ← objects w !! self;
  Wv ← attrs !! "W";
  bv ← attrs !! "b";
  match Wv, bv with
  | VVariable iW, VVariable ib =>
      Wt ← tf_variables w !! iW; bt ← tf_variables w !! ib; Some (Wt, bt)
  | _, _ => None
  end.

(** ** Computations that leave the state alone *)

(** A computation that leaves the weight and the bias of every layer what
    they were. *)
Definition preserves_layers {A} (c : M A) : Prop :=
  ∀ w self p, layer_weights w self = Some p → layer_weights (c w).2 self = Some p.

Definition read_only {A} (c : M A) : Prop := ∀ w, (c w).2 = w.

(** ** What a run of the third cell leaves *)

(** The initial weights and biases of the two layers of the model. *)
Definition cell3_weights (normal_sample : seed_source → nat → R) (w : world)
  : option ((tensor * tensor) * (tensor * tensor)) :=
  match cell3 normal_sample w with
  | (Ok (l1, l2, _, _), w') =>
      p1 ← layer_weights w' l1; p2 ← layer_weights w' l2; Some (p1, p2)
  | (Raise _, _) => None
  end.

(** The data are not governed by the seed: two runs of the third cell can
    leave different data. *)
Definition data_not_governed_by_seed : Prop :=
  ∃ normal_sample w1 w2, cell3_data normal_sample w1 ≠ cell3_data normal_sample w2.

(** A sampler that tells the draws apart by their seed. *)
Definition telltale_sample : seed_source → nat → R :=
  λ src _, match src with
           | FromGlobalSeed _ _ => 0%R
           | FromEntropy k => INR k
           end.

(** ** The part of [W x + b] the layer cuts off *)

(** The negative part, elementwise: [min(y, 0)]. *)
Definition negative_part (y : list R) : list R := map (λ a, Rmin a 0) y.

(** ** A small run *)

(** The state before anything ran: no variable, no object, no global seed. *)
Definition empty_world : world := World [] [] (Generator None 0 0) [].

(** A sampler to run the constructor with: the [i]-th sample is [i]. *)
Definition example_sample : seed_source → nat → R := λ _ i, INR i.

(** The state after [ReluLayer(1, 2)] in the empty state; the layer is the
    object [0]. *)
Definition example_world : world := (ReluLayer example_sample 1 2 empty_world).2.
Definition example_W : list (list R) := initial_W example_sample (FromEntropy 0) 1 2.
Definition example_b : list R := initial_b example_sample (FromEntropy 1) 2.

(** The state after [ReluLayer(2, 1)] in the state of the small run: a
    second layer, the object [1], that takes the output of the first. *)
Definition example_world2 : world := (ReluLayer example_sample 2 1 example_world).2.
Definition example_W2 : list (list R) := initial_W example_sample (FromEntropy 2) 2 1.
Definition example_b2 : list R := initial_b example_sample (FromEntropy 3) 1.

(** Stand-ins for the collaborators, to run the fourth cell with: a dense
    layer with zero weights, no gradients, an optimizer that leaves the
    variables alone. *)
Definition example_dense (t : tensor) : M tensor :=
  match t with
  | T2 rows => ret (T2 (map (λ _, [0%R]) rows))
  | _ => raise ValueError
  end.
Definition example_gradient (loss : tensor) : M (list tensor) := ret [].
Definition example_apply_gradients (grads : list tensor) : M unit := ret tt.

(** ** The recorded run *)

(** The 25 losses the notebook stores as the output of its fourth cell, in
    units of 1e-16 (the first is 1.1182059444179566). *)
Definition recorded_losses : list Z :=
  [11182059444179566; 11135983945033263; 11057307058385368;
   10967696542699080; 10844590239324930; 10690279563783676;
   10512619022795688; 10322302881090637; 10125819721396856;
   9913663215521406; 9653676807090706; 9346387377331861;
   9015834179007990; 8696330587760338; 8358727832552605;
   8012632687553815; 7656949960892767; 7320594352209540;
   7007173654028725; 6717739637641655; 6479549948680946;
   6260994111911655; 6061758074104243; 5910289888009993;
   5749367021103264]%Z.

Fixpoint strictly_decreasing (l : list Z) : bool :=
  match l with
  | a :: (c :: _) as l' => (c <? a)%Z && strictly_decreasing l'
  | _ => true
  end.

(** * Properties *)

(** ** The program's optimum *)

Section Optimum.
Local Open Scope R_scope.

Lemma sum_squares_nonneg v : 0 <= sum_squares v.
Proof.
  induction v as [|a v IH]; unfold sum_squares in *; simpl; [lra | nra].
Qed.

Lemma relu_nonneg y : Forall (λ a, 0 <= a) (relu y).
Proof.
  induction y as [|a y IH]; constructor; [apply Rmax_r | exact IH].
Qed.

Lemma length_relu y : length (relu y) = length y.
Proof. apply length_map. Qed.

Lemma length_matvec M x : length (matvec M x) = length M.
Proof. apply length_map. Qed.

(** One coordinate: over [t >= 0], [(t - u - c)^2] is least at
    [max(u + c, 0)], and only there. *)
Lemma relu_coordinate_least (t u c : R) :
  0 <= t →
  (Rmax (u + c) 0 - u - c) * (Rmax (u + c) 0 - u - c)
  <= (t - u - c) * (t - u - c).
Proof.
  intros Ht. unfold Rmax. destruct (Rle_dec (u + c) 0) as [H|H].
  - assert (0 <= t * - (u + c)) by (apply Rmult_le_pos; lra).
    assert (0 <= t * t) by (apply Rmult_le_pos; lra). lra.
  - pose proof (Rle_0_sqr (t - u - c)) as Hs. unfold Rsqr in Hs. lra.
Qed.

Lemma relu_coordinate_unique (t u c : R) :
  0 <= t →
  (t - u - c) * (t - u - c)
  <= (Rmax (u + c) 0 - u - c) * (Rmax (u + c) 0 - u - c) →
  t = Rmax (u + c) 0.
Proof.
  intros Ht. unfold Rmax. destruct (Rle_dec (u + c) 0) as [H|H]; intros Hle.
  - assert (0 <= t * - (u + c)) by (apply Rmult_le_pos; lra).
    assert (Ht2 : t * t <= 0) by lra.
    destruct (Req_dec t 0) as [->|Hne]; [reflexivity|].
    assert (0 < t * t) by (apply Rmult_lt_0_compat; lra). lra.
  - assert (Hz : (t - u - c) * (t - u - c) <= 0) by lra.
    destruct (Req_dec (t - u - c) 0) as [Heq|Hne]; [lra|].
    pose proof (Rsqr_pos_lt _ Hne) as Hp. unfold Rsqr in Hp. lra.
Qed.

(** The residual of the closed form is no larger than that of any
    nonnegative vector of the same length. *)
Lemma relu_residual_least (t u c : list R) :
  length u = length t → length c = length t →
  Forall (λ a, 0 <= a) t →
  sum_squares (vsub (vsub (relu (vadd u c)) u) c)
  <= sum_squares (vsub (vsub t u) c).
Proof.
  revert u c. induction t as [|a t IH]; intros [|u0 u] [|c0 c] Hu Hc Hpos;
    simpl in *; try discriminate; try lra.
  inversion Hpos as [|? ? Ha Hpos']; subst.
  injection Hu as Hu. injection Hc as Hc.
  specialize (IH u c Hu Hc Hpos').
  pose proof (relu_coordinate_least a u0 c0 Ha).
  unfold sum_squares in *; simpl. lra.
Qed.

(** A nonnegative vector whose residual is no larger than the closed
    form's is the closed form. *)
Lemma relu_residual_unique (t u c : list R) :
  length u = length t → length c = length t →
  Forall (λ a, 0 <= a) t →
  sum_squares (vsub (vsub t u) c)
  <= sum_squares (vsub (vsub (relu (vadd u c)) u) c) →
  t = relu (vadd u c).
Proof.
  revert u c. induction t as [|a t IH]; intros [|u0 u] [|c0 c] Hu Hc Hpos Hle;
    simpl in *; try discriminate; try reflexivity.
  inversion Hpos as [|? ? Ha Hpos']; subst.
  injection Hu as Hu. injection Hc as Hc.
  pose proof (relu_coordinate_least a u0 c0 Ha) as Hhd.
  pose proof (relu_residual_least t u c Hu Hc Hpos') as Htl.
  unfold sum_squares in *; simpl in Hle.
  f_equal.
  - apply relu_coordinate_unique; [exact Ha | lra].
  - apply IH; [exact Hu | exact Hc | exact Hpos' | lra].
Qed.
End Optimum.

Section OptimumOfProblem.
Local Open Scope R_scope.
Variables (input_dim output_dim : nat).

Lemma objective_nonneg p v : 0 <= objective p v.
Proof. apply sum_squares_nonneg. Qed.

Lemma relu_solution_feasible p :
  parameters_shaped input_dim output_dim p →
  feasible input_dim output_dim p (relu_solution p).
Proof.
  intros ([HW HWrows] & Hb & Hx). unfold is_vector in *.
  repeat split; simpl.
  - unfold is_vector, vadd.
    rewrite length_relu, length_zip_with, length_matvec. lia.
  - exact HW.
  - exact HWrows.
  - apply relu_nonneg.
Qed.

(** With [Wtilde = W] the objective is the residual of [z] against
    [W x] and [b]. *)
Lemma relu_solution_least p v :
  parameters_shaped input_dim output_dim p →
  feasible input_dim output_dim p v →
  objective p (relu_solution p) <= objective p v.
Proof.
  intros ([HW _] & Hb & _) ((Hz & _) & Hpos & HWt).
  unfold objective, is_vector in *. rewrite HWt. simpl.
  apply relu_residual_least; [rewrite length_matvec| |exact Hpos]; lia.
Qed.

Lemma relu_solution_optimal p :
  parameters_shaped input_dim output_dim p →
  optimal input_dim output_dim p (relu_solution p).
Proof.
  intros Hp. split; [by apply relu_solution_feasible|].
  intros v' Hv'. by apply relu_solution_least.
Qed.

Lemma optimal_is_relu_solution p v :
  parameters_shaped input_dim output_dim p →
  optimal input_dim output_dim p v → v = relu_solution p.
Proof.
  intros Hp [Hfeas Hmin].
  pose proof (Hmin _ (relu_solution_feasible p Hp)) as Hle.
  destruct Hp as ([HW _] & Hb & _).
  destruct Hfeas as ((Hz & _) & Hpos & HWt).
  destruct v as [zv Wv]. unfold objective, is_vector in *. simpl in *.
  subst Wv. unfold relu_solution. f_equal.
  apply relu_residual_unique; [rewrite length_matvec| |exact Hpos|exact Hle]; lia.
Qed.
End OptimumOfProblem.

Section Adapter.
Variables (input_dim output_dim : nat).

Lemma solve_relu p :
  parameters_shaped input_dim output_dim p →
  solve input_dim output_dim p = Ok (relu_solution p).
Proof.
  intros Hp. unfold solve.
  destruct (excluded_middle_informative _) as [Hex|Hnex].
  - destruct (constructive_indefinite_description _ Hex) as [v Hv]. simpl.
    f_equal. by apply (optimal_is_relu_solution input_dim output_dim).
  - exfalso. apply Hnex. exists (relu_solution p).
    by apply relu_solution_optimal.
Qed.

Lemma solve_batch_relu ps :
  Forall (parameters_shaped input_dim output_dim) ps →
  result_mapM (solve input_dim output_dim) ps = Ok (map relu_solution ps).
Proof.
  induction 1 as [|p ps Hp _ IH]; [reflexivity|].
  simpl. rewrite (solve_relu p Hp). simpl. by rewrite IH.
Qed.

(** The adapter never reports an infeasible or unbounded program. *)
Lemma CvxpyLayer_no_solver_error Wt bt xt :
  CvxpyLayer input_dim output_dim Wt bt xt ≠ Raise SolverError.
Proof.
  unfold CvxpyLayer.
  destruct Wt as [?|?|W0|Ws], bt as [?|b0|bs|?], xt as [?|x0|xs|?];
    try discriminate.
  - case_decide as Hp; [|discriminate]. by rewrite (solve_relu _ Hp).
  - case_decide as Hp; [|discriminate].
    destruct Hp as (_ & _ & Hps). by rewrite (solve_batch_relu _ Hps).
Qed.
End Adapter.

(** ** Computations that leave the state alone *)

Lemma read_only_ret {A} (a : A) : read_only (ret a).
Proof. by intros w. Qed.

Lemma read_only_raise {A} e : read_only (@raise A e).
Proof. by intros w. Qed.

Lemma read_only_lift {A} (r : result A) : read_only (lift r).
Proof. by intros w. Qed.

Lemma read_only_bind {A B} (c : M A) (k : A → M B) :
  read_only c → (∀ a, read_only (k a)) → read_only (bind c k).
Proof.
  intros Hc Hk w. unfold bind. specialize (Hc w).
  destruct (c w) as [[a|e] w']; simpl in *; subst; [apply Hk | done].
Qed.

Lemma read_only_comprehension {A} n (c : M A) :
  read_only c → read_only (comprehension n c).
Proof.
  intros Hc. induction n as [|n IH]; simpl; [apply read_only_ret|].
  apply read_only_bind; [done|]. intros a.
  apply read_only_bind; [done|]. intros l. apply read_only_ret.
Qed.

Lemma read_only_for_each {A B} (f : A → M B) l :
  (∀ a, read_only (f a)) → read_only (for_each f l).
Proof.
  intros Hf. induction l as [|a l IH]; simpl; [apply read_only_ret|].
  apply read_only_bind; [done|]. intros b0.
  apply read_only_bind; [done|]. intros bs. apply read_only_ret.
Qed.

Lemma read_only_getattr self name : read_only (getattr self name).
Proof. intros w. unfold getattr. by destruct (_ ≫= _). Qed.

Lemma read_only_convert_to_tensor v : read_only (convert_to_tensor v).
Proof.
  destruct v as [id|? ?]; intros w; simpl; [|done].
  by destruct (tf_variables w !! id).
Qed.

Lemma read_only_tf_stack vs : read_only (tf_stack vs).
Proof.
  apply read_only_bind.
  - apply read_only_for_each, read_only_convert_to_tensor.
  - intros ts. apply read_only_lift.
Qed.

Lemma read_only_invoke f Wt bt xt : read_only (invoke f Wt bt xt).
Proof. destruct f; [apply read_only_raise | apply read_only_lift]. Qed.

Lemma read_only_subscript out i : read_only (subscript out i).
Proof.
  unfold subscript. destruct (out !! i); [apply read_only_ret | apply read_only_raise].
Qed.

Lemma read_only_batched_arguments self batch_size :
  read_only (batched_arguments self batch_size).
Proof.
  unfold batched_arguments.
  apply read_only_bind; [apply read_only_comprehension, read_only_getattr|]. intros Ws.
  apply read_only_bind; [apply read_only_tf_stack|]. intros Wt.
  apply read_only_bind; [apply read_only_comprehension, read_only_getattr|]. intros bs.
  apply read_only_bind; [apply read_only_tf_stack|]. intros bt.
  apply read_only_ret.
Qed.

Lemma read_only_call self x : read_only (call self x).
Proof.
  unfold call. case_decide.
  - apply read_only_bind; [apply read_only_getattr|]. intros layer.
    apply read_only_bind; [apply read_only_batched_arguments|]. intros [Wt bt].
    apply read_only_bind; [apply read_only_invoke|]. intros out.
    apply read_only_subscript.
  - apply read_only_bind; [apply read_only_getattr|]. intros layer.
    apply read_only_bind; [apply read_only_getattr|]. intros Wv.
    apply read_only_bind; [apply read_only_getattr|]. intros bv.
    apply read_only_bind; [apply read_only_convert_to_tensor|]. intros Wt.
    apply read_only_bind; [apply read_only_convert_to_tensor|]. intros bt.
    apply read_only_bind; [apply read_only_invoke|]. intros out.
    apply read_only_subscript.
Qed.

Lemma read_only_preserves_layers {A} (c : M A) :
  read_only c → preserves_layers c.
Proof. intros Hc w self p Hp. by rewrite (Hc w). Qed.

Lemma preserves_layers_bind {A B} (c : M A) (k : A → M B) :
  preserves_layers c → (∀ a, preserves_layers (k a)) → preserves_layers (bind c k).
Proof.
  intros Hc Hk w self p Hp. unfold bind. specialize (Hc w self p Hp).
  destruct (c w) as [[a|e] w']; simpl in *; [by apply Hk | done].
Qed.

(** ** Running [call] *)

Lemma bind_ok {A B} (c : M A) (k : A → M B) w a w' :
  c w = (Ok a, w') → bind c k w = k a w'.
Proof. intros H. unfold bind. by rewrite H. Qed.

Lemma bind_raise {A B} (c : M A) (k : A → M B) w e w' :
  c w = (Raise e, w') → bind c k w = (Raise e, w').
Proof. intros H. unfold bind. by rewrite H. Qed.

Lemma comprehension_replicate {A} n (c : M A) w a :
  c w = (Ok a, w) → comprehension n c w = (Ok (replicate n a), w).
Proof.
  intros Hc. induction n as [|n IH]; simpl; [done|].
  rewrite (bind_ok _ _ _ _ _ Hc), (bind_ok _ _ _ _ _ IH). done.
Qed.

Lemma for_each_replicate {A B} n (f : A → M B) w a b0 :
  f a w = (Ok b0, w) → for_each f (replicate n a) w = (Ok (replicate n b0), w).
Proof.
  intros Hf. induction n as [|n IH]; simpl; [done|].
  rewrite (bind_ok _ _ _ _ _ Hf), (bind_ok _ _ _ _ _ IH). done.
Qed.

Lemma mapM_as_T1_replicate n v :
  mapM as_T1 (replicate n (T1 v)) = Some (replicate n v).
Proof. induction n as [|n IH]; simpl; [done|]. by rewrite IH. Qed.

Lemma mapM_as_T2_replicate n rows :
  mapM as_T2 (replicate n (T2 rows)) = Some (replicate n rows).
Proof. induction n as [|n IH]; simpl; [done|]. by rewrite IH. Qed.

(** Stacking [n] copies of a vector or of a matrix. *)
Lemma stack_replicate_T1 n v :
  stack (replicate (S n) (T1 v)) = Ok (T2 (replicate (S n) v)).
Proof.
  pose proof (mapM_as_T1_replicate (S n) v) as Hm.
  unfold stack. cbn [replicate] in *. rewrite Hm.
  rewrite decide_True; [done|].
  apply (Forall_replicate _ (S n)). done.
Qed.

Lemma stack_replicate_T2 n rows :
  stack (replicate (S n) (T2 rows)) = Ok (T3 (replicate (S n) rows)).
Proof.
  pose proof (mapM_as_T2_replicate (S n) rows) as Hm.
  unfold stack. cbn [replicate] in *. rewrite Hm.
  rewrite decide_True; [done|].
  apply (Forall_replicate _ (S n)). done.
Qed.

(** The slices of a stack of copies are the copies, also when there are
    none. *)
Lemma unstack_stack_replicate_T1 n v :
  ∃ t, stack (replicate n (T1 v)) = Ok t ∧ unstack t = replicate n (T1 v).
Proof.
  destruct n as [|n]; [by exists (T1 [])|].
  exists (T2 (replicate (S n) v)). split; [apply stack_replicate_T1|].
  simpl. by rewrite fmap_replicate.
Qed.

Lemma unstack_stack_replicate_T2 n rows :
  ∃ t, stack (replicate n (T2 rows)) = Ok t ∧ unstack t = replicate n (T2 rows).
Proof.
  destruct n as [|n]; [by exists (T1 [])|].
  exists (T3 (replicate (S n) rows)). split; [apply stack_replicate_T2|].
  simpl. by rewrite fmap_replicate.
Qed.

Lemma getattr_lookup w self attrs name v :
  objects w !! self = Some attrs → attrs !! name = Some v →
  getattr self name w = (Ok v, w).
Proof. intros Ho Ha. unfold getattr. rewrite Ho. simpl. by rewrite Ha. Qed.

Lemma getattr_missing w self attrs name :
  objects w !! self = Some attrs → attrs !! name = None →
  getattr self name w = (Raise (AttributeError name), w).
Proof. intros Ho Ha. unfold getattr. rewrite Ho. simpl. by rewrite Ha. Qed.

Lemma tf_stack_replicate w n id t :
  tf_variables w !! id = Some t →
  tf_stack (replicate n (VVariable id)) w = (stack (replicate n t), w).
Proof.
  intros Hv. unfold tf_stack.
  rewrite (bind_ok _ _ _ (replicate n t) w); [done|].
  apply for_each_replicate. simpl. by rewrite Hv.
Qed.

(** The arguments of the batched call are the stacks of [batch_size] copies
    of the weight and of the bias. *)
Lemma batched_arguments_replicate w self input_dim output_dim W0 b0 batch_size :
  relu_layer w self input_dim output_dim W0 b0 →
  ∃ Wt bt,
    batched_arguments self batch_size w = (Ok (Wt, bt), w)
    ∧ stack (replicate batch_size (T2 W0)) = Ok Wt
    ∧ stack (replicate batch_size (T1 b0)) = Ok bt.
Proof.
  intros (attrs & iW & ib & Ho & HW & Hb & _ & _ & HvW & Hvb & _).
  destruct (unstack_stack_replicate_T2 batch_size W0) as (Wt & HWt & _).
  destruct (unstack_stack_replicate_T1 batch_size b0) as (bt & Hbt & _).
  exists Wt, bt. split; [|done]. unfold batched_arguments.
  rewrite (bind_ok _ _ _ _ _
             (comprehension_replicate batch_size _ w _ (getattr_lookup _ _ _ _ _ Ho HW))).
  rewrite (bind_ok _ _ _ Wt w); [|by rewrite (tf_stack_replicate _ _ _ _ HvW), HWt].
  rewrite (bind_ok _ _ _ _ _
             (comprehension_replicate batch_size _ w _ (getattr_lookup _ _ _ _ _ Ho Hb))).
  rewrite (bind_ok _ _ _ bt w); [|by rewrite (tf_stack_replicate _ _ _ _ Hvb), Hbt].
  done.
Qed.

Lemma batch_parameters_replicate W0 b0 xs :
  batch_parameters (replicate (length xs) W0) (replicate (length xs) b0) xs
  = map (Parameters W0 b0) xs.
Proof.
  unfold batch_parameters. induction xs as [|x0 xs IH]; simpl; [done|].
  by rewrite IH.
Qed.

(** The adapter on a batch in which every element has the same weight and
    bias. *)
Lemma CvxpyLayer_replicate input_dim output_dim W0 b0 xs :
  is_matrix output_dim input_dim W0 → is_vector output_dim b0 →
  Forall (is_vector input_dim) xs →
  CvxpyLayer input_dim output_dim
    (T3 (replicate (length xs) W0)) (T2 (replicate (length xs) b0)) (T2 xs)
  = Ok [T2 (map (relu_forward W0 b0) xs)].
Proof.
  intros HW Hb Hxs. unfold CvxpyLayer.
  rewrite batch_parameters_replicate.
  assert (Hps : Forall (parameters_shaped input_dim output_dim)
                  (map (Parameters W0 b0) xs)).
  { apply Forall_fmap. eapply Forall_impl; [exact Hxs|].
    intros x0 Hx0. unfold compose, parameters_shaped. simpl. by destruct HW. }
  rewrite decide_True by (by rewrite !length_replicate).
  rewrite (solve_batch_relu _ _ _ Hps). simpl.
  do 3 f_equal. rewrite !map_map. done.
Qed.

(** The adapter on one input. *)
Lemma CvxpyLayer_single input_dim output_dim W0 b0 x0 :
  is_matrix output_dim input_dim W0 → is_vector output_dim b0 →
  is_vector input_dim x0 →
  CvxpyLayer input_dim output_dim (T2 W0) (T1 b0) (T1 x0)
  = Ok [T1 (relu_forward W0 b0 x0)].
Proof.
  intros HW Hb Hx. unfold CvxpyLayer.
  assert (Hp : parameters_shaped input_dim output_dim (Parameters W0 b0 x0))
    by (unfold parameters_shaped; simpl; by destruct HW).
  rewrite decide_True by done.
  by rewrite (solve_relu _ _ _ Hp).
Qed.

(** The batched path: a batch of at least one input of the declared length
    gives the positive part of [W x + b] for every row, and changes
    nothing. *)
Lemma call_batched w self input_dim output_dim W0 b0 xs :
  relu_layer w self input_dim output_dim W0 b0 →
  Forall (is_vector input_dim) xs → xs ≠ [] →
  call self (T2 xs) w = (Ok (T2 (map (relu_forward W0 b0) xs)), w).
Proof.
  intros Hl Hxs Hne.
  destruct (batched_arguments_replicate _ _ _ _ _ _ (length xs) Hl)
    as (Wt & bt & Hargs & HWt & Hbt).
  destruct Hl as (attrs & iW & ib & Ho & _ & _ & Hf & _ & _ & _ & HW & Hb).
  unfold call. rewrite decide_True by done. simpl shape0.
  rewrite (bind_ok _ _ _ _ _ (getattr_lookup _ _ _ _ _ Ho Hf)).
  rewrite (bind_ok _ _ _ _ _ Hargs).
  destruct xs as [|x0 xs']; [done|].
  change (length (x0 :: xs')) with (S (length xs')) in HWt, Hbt.
  rewrite stack_replicate_T2 in HWt. rewrite stack_replicate_T1 in Hbt.
  injection HWt as <-. injection Hbt as <-.
  pose proof (CvxpyLayer_replicate input_dim output_dim W0 b0 (x0 :: xs') HW Hb Hxs) as Hc.
  change (length (x0 :: xs')) with (S (length xs')) in Hc.
  rewrite (bind_ok _ _ _ [T2 (map (relu_forward W0 b0) (x0 :: xs'))] w); [done|].
  unfold invoke, lift. f_equal. exact Hc.
Qed.

(** A batch with no rows: the stacks are empty vectors, which the adapter
    refuses. *)
Lemma call_empty_batch w self input_dim output_dim W0 b0 :
  relu_layer w self input_dim output_dim W0 b0 →
  call self (T2 []) w = (Raise ValueError, w).
Proof.
  intros Hl.
  destruct (batched_arguments_replicate _ _ _ _ _ _ 0 Hl)
    as (Wt & bt & Hargs & HWt & Hbt).
  destruct Hl as (attrs & iW & ib & Ho & _ & _ & Hf & _).
  unfold call. rewrite decide_True by done. simpl shape0.
  rewrite (bind_ok _ _ _ _ _ (getattr_lookup _ _ _ _ _ Ho Hf)).
  rewrite (bind_ok _ _ _ _ _ Hargs).
  simpl in HWt, Hbt. injection HWt as <-. injection Hbt as <-. done.
Qed.

(** The other path: [self.layer] is looked up first, and the object has no
    such attribute. *)
Lemma call_unbatched w self input_dim output_dim W0 b0 x0 :
  relu_layer w self input_dim output_dim W0 b0 →
  rank x0 ≠ 2 →
  call self x0 w = (Raise (AttributeError "layer"), w).
Proof.
  intros (attrs & iW & ib & Ho & _ & _ & _ & Hnone & _) Hrank.
  unfold call. rewrite decide_False by done.
  by rewrite (bind_raise _ _ _ _ _ (getattr_missing _ _ _ _ Ho Hnone)).
Qed.

(** ** Constructing a layer *)

Lemma scale_T2_matrix c n m rows :
  is_matrix n m rows → is_matrix n m (map (map (Rmult c)) rows).
Proof.
  intros [Hn Hrows]. split; [by rewrite length_map|].
  apply Forall_fmap. eapply Forall_impl; [exact Hrows|].
  intros r Hr. unfold compose, is_vector in *. by rewrite length_map.
Qed.

Section Construction.
Variable normal_sample : seed_source → nat → R.

Lemma initial_W_matrix src input_dim output_dim :
  is_matrix output_dim input_dim (initial_W normal_sample src input_dim output_dim).
Proof.
  apply scale_T2_matrix. split; [by rewrite length_map, length_seq|].
  apply Forall_fmap, Forall_forall. intros i _.
  unfold compose, is_vector. by rewrite length_map, length_seq.
Qed.

Lemma initial_b_vector src output_dim :
  is_vector output_dim (initial_b normal_sample src output_dim).
Proof. unfold is_vector, initial_b. by rewrite !length_map, length_seq. Qed.

Lemma ReluLayer_constructed input_dim output_dim w :
  input_dim ≠ 0 → output_dim ≠ 0 →
  ReluLayer normal_sample input_dim output_dim w
  = (Ok (length (objects w)), constructed normal_sample input_dim output_dim w).
Proof.
  intros Hi Ho.
  unfold ReluLayer, cp_leaf. rewrite !decide_True by (repeat constructor; done).
  unfold constructed, bind, new_object, random_normal, new_variable,
    setattr, ret, with_objects, with_tf_variables, with_rng. simpl.
  destruct (next_seed (rng w)) as [src1 g1]. simpl.
  destruct (next_seed g1) as [src2 g2]. simpl.
  f_equal. f_equal.
  - by rewrite <- app_assoc.
  - rewrite length_app, Nat.add_1_r.
    rewrite !alter_app_r_alt, Nat.sub_diag by lia. done.
Qed.

Lemma constructed_relu_layer input_dim output_dim w :
  relu_layer (constructed normal_sample input_dim output_dim w) (length (objects w))
    input_dim output_dim
    (initial_W normal_sample (next_seed (rng w)).1 input_dim output_dim)
    (initial_b normal_sample (next_seed (next_seed (rng w)).2).1 output_dim).
Proof.
  unfold constructed.
  destruct (next_seed (rng w)) as [src1 g1]. simpl.
  destruct (next_seed g1) as [src2 g2]. simpl.
  eexists _, (length (tf_variables w)), (S (length (tf_variables w))). simpl.
  split; [apply list_lookup_middle; done|].
  repeat split.
  - apply (list_lookup_middle _ _ _ _ eq_refl).
  - rewrite lookup_app_r, Nat.sub_succ_l, Nat.sub_diag by lia. done.
  - apply initial_W_matrix.
  - apply initial_W_matrix.
  - apply initial_b_vector.
Qed.

(** Layers constructed before stay what they were. *)
Lemma constructed_preserves input_dim output_dim w self i o W0 b0 :
  relu_layer w self i o W0 b0 →
  relu_layer (constructed normal_sample input_dim output_dim w) self i o W0 b0.
Proof.
  intros (attrs & iW & ib & Ho & HW & Hb & Hf & Hnone & HvW & Hvb & Hsh).
  unfold constructed.
  destruct (next_seed (rng w)) as [src1 g1].
  destruct (next_seed g1) as [src2 g2].
  exists attrs, iW, ib. simpl.
  repeat split; try done; try by apply lookup_app_l_Some.
  all: by destruct Hsh as [[] ?].
Qed.
End Construction.

(** The small run: its layer and parameters of its shapes. *)
Lemma example_relu_layer : relu_layer example_world 0 1 2 example_W example_b.
Proof.
  unfold example_world. rewrite ReluLayer_constructed by lia.
  apply (constructed_relu_layer example_sample 1 2 empty_world).
Qed.

Lemma example_parameters_shaped x0 :
  parameters_shaped 1 2 (Parameters example_W example_b [x0]).
Proof.
  split; [apply initial_W_matrix|]. split; [apply initial_b_vector|done].
Qed.

(** The small run with its second layer. *)
Lemma example_relu_layers :
  relu_layer example_world2 0 1 2 example_W example_b
  ∧ relu_layer example_world2 1 2 1 example_W2 example_b2.
Proof.
  unfold example_world2. rewrite ReluLayer_constructed by lia. split.
  - apply constructed_preserves, example_relu_layer.
  - unfold example_world. rewrite ReluLayer_constructed by lia.
    apply (constructed_relu_layer example_sample 2 1
             (constructed example_sample 1 2 empty_world)).
Qed.

(** ** The seed and the draws *)

Lemma relu_layer_same_heap w w' self i o W0 b0 :
  tf_variables w' = tf_variables w → objects w' = objects w →
  relu_layer w self i o W0 b0 → relu_layer w' self i o W0 b0.
Proof.
  intros Hv Ho (attrs & iW & ib & H). exists attrs, iW, ib.
  by rewrite Hv, Ho.
Qed.

Section Draws.
Variable normal_sample : seed_source → nat → R.

Lemma random_normal_seeded s k u shape w :
  rng w = Generator (Some s) k u →
  random_normal normal_sample shape w
  = (normal_tensor normal_sample (FromGlobalSeed s k) shape,
     with_rng (λ _, Generator (Some s) (S k) u) w).
Proof. intros Hg. unfold random_normal. by rewrite Hg. Qed.

(** With no global seed a draw takes its seed from the system, and the next
    draw another one. *)
Lemma random_normal_unseeded k u shape w :
  rng w = Generator None k u →
  random_normal normal_sample shape w
  = (normal_tensor normal_sample (FromEntropy u) shape,
     with_rng (λ _, Generator None k (S u)) w).
Proof. intros Hg. unfold random_normal. by rewrite Hg. Qed.

Lemma constructed_seeded input_dim output_dim w s k u :
  rng w = Generator (Some s) k u →
  rng (constructed normal_sample input_dim output_dim w) = Generator (Some s) (S (S k)) u
  ∧ stdout (constructed normal_sample input_dim output_dim w) = stdout w
  ∧ length (objects (constructed normal_sample input_dim output_dim w))
    = S (length (objects w))
  ∧ relu_layer (constructed normal_sample input_dim output_dim w) (length (objects w))
      input_dim output_dim
      (initial_W normal_sample (FromGlobalSeed s k) input_dim output_dim)
      (initial_b normal_sample (FromGlobalSeed s (S k)) output_dim).
Proof.
  intros Hg.
  pose proof (constructed_relu_layer normal_sample input_dim output_dim w) as Hl.
  revert Hl. unfold constructed. rewrite Hg. simpl. intros Hl.
  repeat split; [|exact Hl]. by rewrite length_app, Nat.add_1_r.
Qed.

(** The third cell, from any state: the two layers are the next two objects,
    and the six draws are those of positions 0 to 5 after the seed 0. *)
Lemma cell3_seeded w :
  ∃ X Y w',
    cell3 normal_sample w
    = (Ok (length (objects w), S (length (objects w)), X, Y), w')
    ∧ seeded_normal normal_sample 4 [300; 20] = Ok X
    ∧ seeded_normal normal_sample 5 [300; 1] = Ok Y
    ∧ relu_layer w' (length (objects w)) 20 20
        (initial_W normal_sample (FromGlobalSeed 0 0) 20 20)
        (initial_b normal_sample (FromGlobalSeed 0 1) 20)
    ∧ relu_layer w' (S (length (objects w))) 20 20
        (initial_W normal_sample (FromGlobalSeed 0 2) 20 20)
        (initial_b normal_sample (FromGlobalSeed 0 3) 20)
    ∧ stdout w' = stdout w.
Proof.
  set (u := unseeded_draws (rng w)).
  set (w0 := with_rng (λ g, Generator (Some 0%Z) 0 (unseeded_draws g)) w).
  set (w1 := constructed normal_sample 20 20 w0).
  set (w2 := constructed normal_sample 20 20 w1).
  set (w3 := with_rng (λ _, Generator (Some 0%Z) 5 u) w2).
  set (w4 := with_rng (λ _, Generator (Some 0%Z) 6 u) w3).
  destruct (constructed_seeded 20 20 w0 0%Z 0 u eq_refl) as (Hg1 & Ho1 & Hn1 & Hl1).
  fold w1 in Hg1, Ho1, Hn1, Hl1.
  destruct (constructed_seeded 20 20 w1 0%Z 2 u Hg1) as (Hg2 & Ho2 & Hn2 & Hl2).
  fold w2 in Hg2, Ho2, Hn2, Hl2.
  eexists _, _, w4. split; [|split; [reflexivity|split; [reflexivity|]]].
  - unfold cell3.
    rewrite (bind_ok _ _ _ tt w0) by done.
    rewrite (bind_ok _ _ _ _ _ (ReluLayer_constructed normal_sample 20 20 w0 ltac:(lia) ltac:(lia))).
    fold w1.
    rewrite (bind_ok _ _ _ _ _ (ReluLayer_constructed normal_sample 20 20 w1 ltac:(lia) ltac:(lia))).
    fold w2.
    rewrite (bind_ok _ _ _ _ _ (random_normal_seeded 0%Z 4 u [300; 20] w2 Hg2)).
    fold w3.
    rewrite (bind_ok _ _ _ _ _ (random_normal_seeded 0%Z 5 u [300; 1] w3 eq_refl)).
    fold w4. rewrite Hn1. done.
  - split; [|split].
    + apply (relu_layer_same_heap w2); [done|done|].
      by apply constructed_preserves.
    + apply (relu_layer_same_heap w2); [done|done|]. rewrite Hn1 in Hl2. exact Hl2.
    + change (stdout w4) with (stdout w2). by rewrite Ho2, Ho1.
Qed.
End Draws.

Lemma relu_layer_weights w self i o W0 b0 :
  relu_layer w self i o W0 b0 → layer_weights w self = Some (T2 W0, T1 b0).
Proof.
  intros (attrs & iW & ib & Ho & HW & Hb & _ & _ & HvW & Hvb & _).
  unfold layer_weights. rewrite Ho. simpl. rewrite HW. simpl. rewrite Hb. simpl.
  rewrite HvW. simpl. by rewrite Hvb.
Qed.

Lemma cell3_data_seeded normal_sample w :
  ∃ X Y, cell3_data normal_sample w = Some (X, Y)
         ∧ seeded_normal normal_sample 4 [300; 20] = Ok X
         ∧ seeded_normal normal_sample 5 [300; 1] = Ok Y.
Proof.
  destruct (cell3_seeded normal_sample w) as (X & Y & w' & Hrun & HX & HY & _).
  exists X, Y. unfold cell3_data. by rewrite Hrun.
Qed.

(** Unseeded draws can differ from one state to another. *)
Lemma unseeded_draw_not_reproducible :
  (random_normal telltale_sample [1] empty_world).1
  ≠ (random_normal telltale_sample [1]
       (with_rng (λ _, Generator None 0 1) empty_world)).1.
Proof.
  rewrite (random_normal_unseeded telltale_sample 0 0 [1] empty_world eq_refl).
  rewrite (random_normal_unseeded telltale_sample 0 1 [1]
             (with_rng (λ _, Generator None 0 1) empty_world) eq_refl).
  simpl. intros H. injection H as H. lra.
Qed.

(** ** The training loop *)

Lemma relu_forward_vectors input_dim output_dim W0 b0 xs :
  is_matrix output_dim input_dim W0 → is_vector output_dim b0 →
  Forall (is_vector output_dim) (map (relu_forward W0 b0) xs).
Proof.
  intros [HW _] Hb. apply Forall_fmap, Forall_forall. intros x1 _.
  unfold compose, is_vector, relu_forward, vadd in *.
  rewrite length_relu, length_zip_with, length_matvec. lia.
Qed.

Lemma is_matrix_row_lengths n m A :
  is_matrix n m A → map length A = replicate n m.
Proof.
  intros [<- Hrows]. induction Hrows as [|r A Hr _ IH]; [done|].
  simpl. by rewrite Hr, IH.
Qed.

Lemma tsub_matrices n m Y P :
  is_matrix n m Y → is_matrix n m P →
  tsub (T2 Y) (T2 P) = Ok (T2 (zip_with (zip_with Rminus) Y P)).
Proof.
  intros HY HP. unfold tsub. rewrite decide_True; [done|]. simpl.
  by rewrite (is_matrix_row_lengths _ _ _ HY), (is_matrix_row_lengths _ _ _ HP).
Qed.

Lemma normal_tensor_matrix normal_sample src n m :
  ∃ rows, normal_tensor normal_sample src [n; m] = Ok (T2 rows) ∧ is_matrix n m rows.
Proof.
  eexists. split; [reflexivity|].
  split; [by rewrite length_map, length_seq|].
  apply Forall_fmap, Forall_forall. intros i _.
  unfold compose, is_vector. by rewrite length_map, length_seq.
Qed.

Section TrainingRuns.
Variable dense : tensor → M tensor.
Variable tape_gradient : tensor → M (list tensor).
Variable apply_gradients : list tensor → M unit.

Hypothesis dense_behaves : ∀ l1 l2 h,
  Forall (is_vector 20) h →
  well_behaved l1 l2 (dense (T2 h)) (λ t, has_shape t [length h; 1]).
Hypothesis tape_gradient_behaves : ∀ l1 l2 loss,
  well_behaved l1 l2 (tape_gradient loss) (λ _, True).
Hypothesis apply_gradients_behaves : ∀ l1 l2 grads,
  well_behaved l1 l2 (apply_gradients grads) (λ _, True).

(** One step on a batch with at least one row: it returns, prints one scalar
    and leaves the layers fit for the next step. *)
Lemma training_step_prints_one l1 l2 xs Y w :
  trainable l1 l2 w →
  Forall (is_vector 20) xs → xs ≠ [] → is_matrix (length xs) 1 Y →
  ∃ loss w',
    training_step dense tape_gradient apply_gradients l1 l2 (T2 xs) (T2 Y) w
    = (Ok tt, w')
    ∧ trainable l1 l2 w' ∧ stdout w' = stdout w ++ [T0 loss].
Proof.
  intros Ht Hxs Hne HY.
  pose proof Ht as (W1 & b1 & W2 & b2 & Hl1 & Hl2).
  pose proof Hl1 as (?&?&?&_&_&_&_&_&_&_&HW1&Hb1).
  pose proof (relu_forward_vectors _ _ _ _ xs HW1 Hb1) as Hh1.
  set (h1 := map (relu_forward W1 b1) xs) in *.
  set (h2 := map (relu_forward W2 b2) h1).
  assert (Hh1ne : h1 ≠ []) by (subst h1; by destruct xs).
  destruct (dense_behaves l1 l2 h2) with (w := w)
    as (pred & wd & Hdense & Hshape & Htd & Hod); [|done|].
  { pose proof Hl2 as (?&?&?&_&_&_&_&_&_&_&HW2&Hb2).
    apply (relu_forward_vectors _ _ _ _ h1 HW2 Hb2). }
  destruct pred as [|?|P|]; try done. simpl in Hshape.
  assert (HP : is_matrix (length xs) 1 P).
  { subst h2 h1. by rewrite !length_map in Hshape. }
  set (c := (1 / INR (length xs))%R).
  set (loss := T0 (c * reduce_sum (square (T2 (zip_with (zip_with Rminus) Y P))))).
  destruct (tape_gradient_behaves l1 l2 loss) with (w := with_stdout (λ out, out ++ [loss]) wd)
    as (grads & wg & Hgrad & _ & Htg & Hog).
  { destruct Htd as (W1' & b1' & W2' & b2' & Hl1' & Hl2').
    exists W1', b1', W2', b2'. split; by eapply relu_layer_same_heap. }
  destruct (apply_gradients_behaves l1 l2 grads) with (w := wg)
    as ([] & wa & Happly & _ & Hta & Hoa); [done|].
  exists (c * reduce_sum (square (T2 (zip_with (zip_with Rminus) Y P))))%R, wa.
  split; [|split; [done|]].
  - unfold training_step.
    rewrite (bind_ok _ _ _ grads wg); [exact Happly|].
    unfold loss_and_gradients.
    rewrite (bind_ok _ _ _ c w).
    2:{ unfold lift, reciprocal. simpl. rewrite decide_False; [done|].
        by destruct xs. }
    rewrite (bind_ok _ _ _ (T2 P) wd).
    2:{ unfold model.
        rewrite (bind_ok _ _ _ _ _ (call_batched _ _ _ _ _ _ _ Hl1 Hxs Hne)).
        rewrite (bind_ok _ _ _ _ _ (call_batched _ _ _ _ _ _ _ Hl2 Hh1 Hh1ne)).
        exact Hdense. }
    rewrite (bind_ok _ _ _ loss wd).
    2:{ unfold lift, loss_of. by rewrite (tsub_matrices _ _ _ _ HY HP). }
    rewrite (bind_ok _ _ _ tt (with_stdout (λ out, out ++ [loss]) wd)) by done.
    exact Hgrad.
  - rewrite Hoa, Hog. simpl. by rewrite Hod.
Qed.

(** [n] steps print [n] scalars. *)
Lemma for_range_training_prints n l1 l2 xs Y w :
  trainable l1 l2 w →
  Forall (is_vector 20) xs → xs ≠ [] → is_matrix (length xs) 1 Y →
  ∃ losses w',
    for_range n (training_step dense tape_gradient apply_gradients l1 l2 (T2 xs) (T2 Y)) w
    = (Ok tt, w')
    ∧ trainable l1 l2 w'
    ∧ stdout w' = stdout w ++ map T0 losses ∧ length losses = n.
Proof.
  intros Ht Hxs Hne HY. revert w Ht.
  induction n as [|n IH]; intros w Ht.
  - exists [], w. simpl. by rewrite app_nil_r.
  - destruct (training_step_prints_one l1 l2 xs Y w Ht Hxs Hne HY)
      as (loss & w1 & Hstep & Ht1 & Ho1).
    destruct (IH w1 Ht1) as (losses & w' & Hrest & Ht' & Ho' & Hlen).
    exists (loss :: losses), w'. simpl.
    rewrite (bind_ok _ _ _ _ _ Hstep).
    split; [done|]. split; [done|]. split; [|by rewrite Hlen].
    by rewrite Ho', Ho1, <- app_assoc.
Qed.
End TrainingRuns.

(** The stand-ins meet what the run asks of the collaborators. *)
Lemma example_collaborators_behave :
  (∀ l1 l2 h, Forall (is_vector 20) h →
     well_behaved l1 l2 (example_dense (T2 h)) (λ t, has_shape t [length h; 1]))
  ∧ (∀ l1 l2 loss, well_behaved l1 l2 (example_gradient loss) (λ _, True))
  ∧ (∀ l1 l2 grads, well_behaved l1 l2 (example_apply_gradients grads) (λ _, True)).
Proof.
  split; [|split].
  - intros l1 l2 h _ w Hw. eexists _, w. split; [reflexivity|].
    split; [|done]. simpl. split; [by rewrite length_map|].
    apply Forall_fmap, Forall_forall. by intros.
  - intros l1 l2 loss w Hw. by exists [], w.
  - intros l1 l2 grads w Hw. by exists tt, w.
Qed.

(** ** The loss as a sum over entries *)

Lemma zip_with_nth_seq {A B C} (g : A → B → C) (da : A) (db : B) u v k :
  length u = k → length v = k →
  zip_with g u v = map (λ j, g (nth j u da) (nth j v db)) (seq 0 k).
Proof.
  revert v k. induction u as [|a u IH]; intros [|c v] [|k] Hu Hv;
    simpl in *; try discriminate; [done|].
  f_equal. rewrite <- seq_shift, map_map.
  apply IH; lia.
Qed.

Lemma sum_squared_differences rows cols Y P :
  is_matrix rows cols Y → is_matrix rows cols P →
  reduce_sum (square (T2 (zip_with (zip_with Rminus) Y P)))
  = vsum (map (λ i, vsum (map (λ j, ((entry Y i j - entry P i j)
                                   * (entry Y i j - entry P i j))%R)
                            (seq 0 cols)))
             (seq 0 rows)).
Proof.
  intros [HYn HYrows] [HPn HProws]. simpl.
  rewrite (zip_with_nth_seq _ [] [] Y P rows HYn HPn).
  rewrite !map_map. f_equal. apply map_ext_in. intros i Hi.
  apply in_seq in Hi. f_equal.
  assert (Hyi : length (nth i Y []) = cols).
  { apply (proj1 (Forall_nth _ [] _) HYrows). lia. }
  assert (Hpi : length (nth i P []) = cols).
  { apply (proj1 (Forall_nth _ [] _) HProws). lia. }
  rewrite (zip_with_nth_seq _ 0%R 0%R _ _ cols Hyi Hpi).
  by rewrite map_map.
Qed.

(** The recorded run printed 25 losses, each lower than the one before. *)
Lemma recorded_losses_decrease :
  length recorded_losses = 25 ∧ strictly_decreasing recorded_losses = true.
Proof. split; reflexivity. Qed.

(** * The claims *)

(** C1: for a weight of shape (n, m), a bias of shape (n,) and an input of
    shape (m,), the solutions of the layer's program are exactly the closed
    form: [z] is the elementwise maximum of [W x + b] and 0 (with
    [Wtilde = W]), and the adapter called on these three values returns it.
    The layer itself, called on the unbatched input, returns nothing: it
    raises [AttributeError], since [call] asks for [self.layer] where the
    constructor set [self.cvxpy_layer]. *)
Theorem relu_program_optimum_unbatched_call_raises
  input_dim output_dim p w self :
  parameters_shaped input_dim output_dim p →
  relu_layer w self input_dim output_dim (W p) (b p) →
  (∀ v, optimal input_dim output_dim p v
        ↔ z v = relu (vadd (matvec (W p) (x p)) (b p)) ∧ Wtilde v = W p)
  ∧ CvxpyLayer input_dim output_dim (T2 (W p)) (T1 (b p)) (T1 (x p))
    = Ok [T1 (relu (vadd (matvec (W p) (x p)) (b p)))]
  ∧ call self (T1 (x p)) w = (Raise (AttributeError "layer"), w).
Proof.
  intros Hp Hl. split; [|split].
  - intros v. split.
    + intros Hv. by rewrite (optimal_is_relu_solution _ _ _ _ Hp Hv).
    + intros [Hz HW]. destruct v as [zv Wv]. simpl in *. subst.
      by apply relu_solution_optimal.
  - destruct Hp as (HW & Hb & Hx). by apply CvxpyLayer_single.
  - by apply (call_unbatched _ _ _ _ _ _ _ Hl).
Qed.

Lemma relu_program_optimum_unbatched_call_raises_witness :
  parameters_shaped 1 2 (Parameters example_W example_b [2%R])
  ∧ call 0 (T1 [2%R]) example_world
    = (Raise (AttributeError "layer"), example_world).
Proof.
  split; [apply example_parameters_shaped|].
  apply (relu_program_optimum_unbatched_call_raises
           1 2 (Parameters example_W example_b [2%R]) example_world 0).
  - apply example_parameters_shaped.
  - apply example_relu_layer.
Defined.

(** C2: a layer constructed with [input_dim = m] and [output_dim = n], both
    positive as cvxpy requires of a dimension, and called on a batch of shape
    (batch, m), with at least one row, returns a tensor of shape (batch, n);
    called on an input of shape (m,) it returns no tensor at all but raises
    [AttributeError] for the attribute [layer]. *)
Theorem constructed_layer_call_shapes normal_sample m n w x0 batch xs :
  m ≠ 0 → n ≠ 0 →
  is_vector m x0 → is_matrix batch m xs → batch ≠ 0 →
  ∃ self w1,
    ReluLayer normal_sample m n w = (Ok self, w1)
    ∧ (∃ out, call self (T2 xs) w1 = (Ok out, w1) ∧ has_shape out [batch; n])
    ∧ call self (T1 x0) w1 = (Raise (AttributeError "layer"), w1).
Proof.
  intros Hm Hn Hx0 [Hlen Hxs] Hbatch.
  exists (length (objects w)), (constructed normal_sample m n w).
  pose proof (constructed_relu_layer normal_sample m n w) as Hl.
  split; [by apply ReluLayer_constructed|]. split.
  - eexists. split.
    + apply (call_batched _ _ _ _ _ _ _ Hl Hxs). by destruct xs; subst.
    + simpl. split; [by rewrite length_map|].
      apply Forall_fmap, Forall_forall. intros x1 _.
      unfold compose, is_vector, relu_forward, vadd.
      rewrite length_relu, length_zip_with, length_matvec.
      destruct Hl as (?&?&?&_&_&_&_&_&_&_&[HW _]&Hb).
      unfold is_vector in Hb. lia.
  - by apply (call_unbatched _ _ _ _ _ _ _ Hl).
Qed.

Lemma constructed_layer_call_shapes_witness :
  ∃ self w1,
    ReluLayer example_sample 1 2 empty_world = (Ok self, w1)
    ∧ (∃ out, call self (T2 [[3%R]]) w1 = (Ok out, w1) ∧ has_shape out [1; 2])
    ∧ call self (T1 [0%R]) w1 = (Raise (AttributeError "layer"), w1).
Proof.
  apply (constructed_layer_call_shapes example_sample 1 2 empty_world
           [0%R] 1 [[3%R]]).
  - lia.
  - lia.
  - reflexivity.
  - split; [reflexivity | repeat constructor].
  - lia.
Defined.

(** C3: on a batch, row [i] of the layer's output is the positive part of
    [W x_i + b], which is what the adapter returns for row [i] alone; the
    layer called on row [i] alone does not return it but raises
    [AttributeError]. *)
Theorem batched_row_is_single_instance w self input_dim output_dim W0 b0 xs i xi :
  relu_layer w self input_dim output_dim W0 b0 →
  Forall (is_vector input_dim) xs →
  xs !! i = Some xi →
  (∃ rows, call self (T2 xs) w = (Ok (T2 rows), w)
           ∧ rows !! i = Some (relu_forward W0 b0 xi))
  ∧ CvxpyLayer input_dim output_dim (T2 W0) (T1 b0) (T1 xi)
    = Ok [T1 (relu_forward W0 b0 xi)]
  ∧ call self (T1 xi) w = (Raise (AttributeError "layer"), w).
Proof.
  intros Hl Hxs Hi. split; [|split].
  - exists (map (relu_forward W0 b0) xs). split.
    + apply (call_batched _ _ _ _ _ _ _ Hl Hxs). by destruct xs.
    + by rewrite list_lookup_fmap, Hi.
  - destruct Hl as (?&?&?&_&_&_&_&_&_&_&HW&Hb).
    apply CvxpyLayer_single; [done|done|].
    by apply (Forall_lookup_1 _ _ _ _ Hxs Hi).
  - by apply (call_unbatched _ _ _ _ _ _ _ Hl).
Qed.

Lemma batched_row_is_single_instance_witness :
  (∃ rows, call 0 (T2 [[0%R]]) example_world = (Ok (T2 rows), example_world)
           ∧ rows !! 0 = Some (relu_forward example_W example_b [0%R]))
  ∧ call 0 (T1 [0%R]) example_world
    = (Raise (AttributeError "layer"), example_world).
Proof.
  destruct (batched_row_is_single_instance example_world 0 1 2
              example_W example_b [[0%R]] 0 [0%R]) as (Hrow & _ & Hraise).
  - apply example_relu_layer.
  - repeat constructor.
  - reflexivity.
  - split; [exact Hrow | exact Hraise].
Defined.

(** C4, as stated, fails: no two runs of the third cell differ in their
    data; [X] and [Y] are drawn after [tf.random.set_seed(0)] with no seed
    of their own, so the global seed governs them. *)
Lemma data_governed_by_seed : ¬ data_not_governed_by_seed.
Proof.
  intros (normal_sample & w1 & w2 & Hne). apply Hne.
  destruct (cell3_data_seeded normal_sample w1) as (X1 & Y1 & -> & HX1 & HY1).
  destruct (cell3_data_seeded normal_sample w2) as (X2 & Y2 & -> & HX2 & HY2).
  rewrite HX1 in HX2. rewrite HY1 in HY2.
  injection HX2 as ->. injection HY2 as ->. done.
Qed.

(** C4, amended: the seed set before the model is constructed governs every
    draw made after it.  From any state, the initial weight and bias of the
    first layer are the draws at positions 0 and 1 after the seed 0, those of
    the second layer the draws at positions 2 and 3, and the data [X] and [Y]
    the draws at positions 4 and 5: the initialization and the data are the
    same in every run. *)
Theorem seed_governs_initialization_and_data normal_sample w :
  cell3_weights normal_sample w
  = Some ((T2 (initial_W normal_sample (FromGlobalSeed 0 0) 20 20),
           T1 (initial_b normal_sample (FromGlobalSeed 0 1) 20)),
          (T2 (initial_W normal_sample (FromGlobalSeed 0 2) 20 20),
           T1 (initial_b normal_sample (FromGlobalSeed 0 3) 20)))
  ∧ ∃ X Y, cell3_data normal_sample w = Some (X, Y)
           ∧ seeded_normal normal_sample 4 [300; 20] = Ok X
           ∧ seeded_normal normal_sample 5 [300; 1] = Ok Y.
Proof.
  split; [|apply cell3_data_seeded].
  destruct (cell3_seeded normal_sample w) as (X & Y & w' & Hrun & _ & _ & Hl1 & Hl2 & _).
  unfold cell3_weights. rewrite Hrun.
  rewrite (relu_layer_weights _ _ _ _ _ _ Hl1). simpl.
  by rewrite (relu_layer_weights _ _ _ _ _ _ Hl2).
Qed.

(** C5: the third and fourth cell, run from any state with collaborators
    that return, print exactly 25 scalars: the loop has 25 iterations, each
    prints one loss, and nothing ends it earlier. *)
Theorem notebook_prints_25_losses
  normal_sample dense tape_gradient apply_gradients w :
  (∀ l1 l2 h, Forall (is_vector 20) h →
     well_behaved l1 l2 (dense (T2 h)) (λ t, has_shape t [length h; 1])) →
  (∀ l1 l2 loss, well_behaved l1 l2 (tape_gradient loss) (λ _, True)) →
  (∀ l1 l2 grads, well_behaved l1 l2 (apply_gradients grads) (λ _, True)) →
  ∃ losses w',
    notebook normal_sample dense tape_gradient apply_gradients w = (Ok tt, w')
    ∧ stdout w' = stdout w ++ map T0 losses
    ∧ length losses = 25.
Proof.
  intros Hdense Hgrad Happly.
  destruct (cell3_seeded normal_sample w)
    as (X & Y & w3 & Hrun & HX & HY & Hl1 & Hl2 & Hout).
  destruct (normal_tensor_matrix normal_sample (FromGlobalSeed 0 4) 300 20)
    as (xs & HX' & [Hxn Hxs]).
  destruct (normal_tensor_matrix normal_sample (FromGlobalSeed 0 5) 300 1)
    as (ys & HY' & Hys).
  unfold seeded_normal in HX, HY. rewrite HX' in HX. rewrite HY' in HY.
  injection HX as <-. injection HY as <-.
  assert (Ht : trainable (length (objects w)) (S (length (objects w))) w3)
    by (by eexists _, _, _, _).
  assert (Hne : xs ≠ []) by (by destruct xs).
  rewrite <- Hxn in Hys.
  destruct (for_range_training_prints dense tape_gradient apply_gradients
              Hdense Hgrad Happly 25 _ _ xs ys w3 Ht Hxs Hne Hys)
    as (losses & w' & Hloop & _ & Ho & Hlen).
  exists losses, w'. split; [|by rewrite Ho, Hout].
  unfold notebook. by rewrite (bind_ok _ _ _ _ _ Hrun).
Qed.

Lemma notebook_prints_25_losses_witness :
  ∃ losses w',
    notebook example_sample example_dense example_gradient
      example_apply_gradients empty_world = (Ok tt, w')
    ∧ stdout w' = stdout empty_world ++ map T0 losses
    ∧ length losses = 25.
Proof.
  apply (notebook_prints_25_losses example_sample example_dense example_gradient
           example_apply_gradients empty_world);
    apply example_collaborators_behave.
Defined.

(** The code's [(1 / X.shape[0]) * reduce_sum((Y - P)**2)] against the mean
    squared error. *)
Lemma loss_of_mean_squared_error rows cols X Y P :
  shape0 X = rows → rows ≠ 0 →
  is_matrix rows cols Y → is_matrix rows cols P →
  ∃ c, reciprocal (shape0 X) = Ok c
       ∧ loss_of c (T2 Y) (T2 P) = Ok (T0 (mean_squared_error rows cols Y P)).
Proof.
  intros HX Hrows HY HP. exists (1 / INR rows)%R. split.
  - unfold reciprocal. rewrite HX. by rewrite decide_False.
  - unfold loss_of. rewrite (tsub_matrices _ _ _ _ HY HP). unfold result_bind.
    rewrite (sum_squared_differences _ _ _ _ HY HP).
    unfold mean_squared_error. do 2 f_equal.
    field. by apply not_0_INR.
Qed.

(** The model of the small run on a batch of two rows, with the stand-in
    dense layer. *)
Lemma example_model_run :
  model example_dense 0 1 (T2 [[1%R]; [2%R]]) example_world2
  = (Ok (T2 [[0%R]; [0%R]]), example_world2).
Proof.
  destruct example_relu_layers as [Hl1 Hl2]. unfold model.
  rewrite (bind_ok _ _ _ _ _
             (call_batched _ _ _ _ _ _ [[1%R]; [2%R]] Hl1
                ltac:(repeat constructor) ltac:(discriminate))).
  pose proof Hl1 as (?&?&?&_&_&_&_&_&_&_&HW1&Hb1).
  rewrite (bind_ok _ _ _ _ _
             (call_batched _ _ _ _ _ _ _ Hl2
                (relu_forward_vectors _ _ _ _ [[1%R]; [2%R]] HW1 Hb1)
                ltac:(discriminate))).
  reflexivity.
Qed.

(** C6: in the body of the loop, from any state, the loss is the mean squared
    error between the targets and the prediction of the model: if [model(X)]
    returns the matrix [P], of the shape of [Y], then the scalar that the
    step prints, and that [tape.gradient] differentiates, is the sum over all
    entries of [(Y - P)] squared divided by the number of rows of [X], and
    the step goes on with the optimizer on the gradients of that scalar. *)
Theorem training_step_loss_is_mean_squared_error
  dense tape_gradient apply_gradients l1 l2 rows cols X Y P w wd :
  shape0 X = rows → rows ≠ 0 →
  is_matrix rows cols Y → is_matrix rows cols P →
  model dense l1 l2 X w = (Ok (T2 P), wd) →
  let loss := T0 (mean_squared_error rows cols Y P) in
  loss_and_gradients dense tape_gradient l1 l2 X (T2 Y) w
  = tape_gradient loss (with_stdout (λ out, out ++ [loss]) wd)
  ∧ training_step dense tape_gradient apply_gradients l1 l2 X (T2 Y) w
    = (let* grads := tape_gradient loss in apply_gradients grads)
        (with_stdout (λ out, out ++ [loss]) wd).
Proof.
  intros HX Hrows HY HP Hmodel loss.
  destruct (loss_of_mean_squared_error rows cols X Y P HX Hrows HY HP)
    as (c & Hc & Hloss).
  assert (Hlg : loss_and_gradients dense tape_gradient l1 l2 X (T2 Y) w
                = tape_gradient loss (with_stdout (λ out, out ++ [loss]) wd)).
  { unfold loss_and_gradients.
    rewrite (bind_ok _ _ _ c w) by (unfold lift; by rewrite Hc).
    rewrite (bind_ok _ _ _ _ _ Hmodel).
    rewrite (bind_ok _ _ _ loss wd) by (unfold lift; by rewrite Hloss).
    by rewrite (bind_ok _ _ _ tt (with_stdout (λ out, out ++ [loss]) wd)). }
  split; [exact Hlg|].
  unfold training_step, bind. by rewrite Hlg.
Qed.

Lemma training_step_loss_is_mean_squared_error_witness :
  model example_dense 0 1 (T2 [[1%R]; [2%R]]) example_world2
  = (Ok (T2 [[0%R]; [0%R]]), example_world2)
  ∧ loss_and_gradients example_dense example_gradient 0 1
      (T2 [[1%R]; [2%R]]) (T2 [[1%R]; [0%R]]) example_world2
    = example_gradient
        (T0 (mean_squared_error 2 1 [[1%R]; [0%R]] [[0%R]; [0%R]]))
        (with_stdout
           (λ out, out ++ [T0 (mean_squared_error 2 1 [[1%R]; [0%R]] [[0%R]; [0%R]])])
           example_world2).
Proof.
  split; [exact example_model_run|].
  apply (training_step_loss_is_mean_squared_error example_dense example_gradient
           example_apply_gradients 0 1 2 1 (T2 [[1%R]; [2%R]])
           [[1%R]; [0%R]] [[0%R]; [0%R]] example_world2 example_world2).
  - reflexivity.
  - lia.
  - split; [reflexivity | repeat constructor].
  - split; [reflexivity | repeat constructor].
  - exact example_model_run.
Defined.

(** C7: on the batched path, for a batch of size [B], the first two
    arguments the layer passes to the adapter are a stack of exactly [B]
    slices that all equal [W] and a stack of exactly [B] slices that all
    equal [b]. *)
Theorem batched_call_replicates_weights w self input_dim output_dim W0 b0 xt :
  relu_layer w self input_dim output_dim W0 b0 →
  rank xt = 2 →
  ∃ Wt bt,
    batched_arguments self (shape0 xt) w = (Ok (Wt, bt), w)
    ∧ unstack Wt = replicate (shape0 xt) (T2 W0)
    ∧ unstack bt = replicate (shape0 xt) (T1 b0)
    ∧ call self xt w
      = (let* out := lift (CvxpyLayer input_dim output_dim Wt bt xt) in
         subscript out 0) w.
Proof.
  intros Hl Hrank.
  destruct (batched_arguments_replicate _ _ _ _ _ _ (shape0 xt) Hl)
    as (Wt & bt & Hargs & HWt & Hbt).
  exists Wt, bt. split; [done|].
  destruct (unstack_stack_replicate_T2 (shape0 xt) W0) as (Wt' & HWt' & HuW).
  destruct (unstack_stack_replicate_T1 (shape0 xt) b0) as (bt' & Hbt' & Hub).
  rewrite HWt in HWt'. rewrite Hbt in Hbt'.
  injection HWt' as <-. injection Hbt' as <-.
  split; [done|]. split; [done|].
  destruct Hl as (attrs & iW & ib & Ho & _ & _ & Hf & _).
  unfold call. rewrite decide_True by done.
  rewrite (bind_ok _ _ _ _ _ (getattr_lookup _ _ _ _ _ Ho Hf)).
  by rewrite (bind_ok _ _ _ _ _ Hargs).
Qed.

Lemma batched_call_replicates_weights_witness :
  ∃ Wt bt,
    batched_arguments 0 3 example_world = (Ok (Wt, bt), example_world)
    ∧ unstack Wt = replicate 3 (T2 example_W)
    ∧ unstack bt = replicate 3 (T1 example_b).
Proof.
  destruct (batched_call_replicates_weights example_world 0 1 2
              example_W example_b (T2 [[0%R]; [1%R]; [2%R]]))
    as (Wt & bt & Hargs & HW & Hb & _).
  - apply example_relu_layer.
  - reflexivity.
  - exists Wt, bt. split; [exact Hargs|]. split; [exact HW | exact Hb].
Defined.

(** C8: calling the layer, on any input and in any state, changes nothing:
    the variables (so [W] and [b]), the attributes of every object, the
    random generator and the output are after the call what they were
    before, whether the call returns a tensor or raises.  In a training step
    the weight and the bias of every layer are, when the optimizer's
    [apply_gradients] begins, what they were when the step began, as long as
    the dense layer and [tape.gradient] leave them alone: nothing else in the
    step writes them. *)
Theorem call_changes_nothing
  dense tape_gradient l1 l2 X Y self xt w :
  (∀ t, preserves_layers (dense t)) →
  (∀ loss, preserves_layers (tape_gradient loss)) →
  (call self xt w).2 = w
  ∧ preserves_layers (loss_and_gradients dense tape_gradient l1 l2 X Y).
Proof.
  intros Hdense Hgrad. split; [apply read_only_call|].
  unfold loss_and_gradients.
  apply preserves_layers_bind; [apply read_only_preserves_layers, read_only_lift|].
  intros c. apply preserves_layers_bind.
  - unfold model.
    apply preserves_layers_bind; [apply read_only_preserves_layers, read_only_call|].
    intros h1.
    apply preserves_layers_bind; [apply read_only_preserves_layers, read_only_call|].
    intros h2. apply Hdense.
  - intros pred.
    apply preserves_layers_bind; [apply read_only_preserves_layers, read_only_lift|].
    intros loss. apply preserves_layers_bind; [|intros _; apply Hgrad].
    by intros w0 l p Hp.
Qed.

Lemma call_changes_nothing_witness :
  (call 0 (T2 [[0%R]]) example_world).2 = example_world
  ∧ preserves_layers
      (loss_and_gradients example_dense example_gradient 0 0 (T2 [[0%R]]) (T2 [[0%R]])).
Proof.
  apply (call_changes_nothing example_dense example_gradient 0 0
           (T2 [[0%R]]) (T2 [[0%R]]) 0 (T2 [[0%R]]) example_world).
  - intros t. apply read_only_preserves_layers.
    destruct t; [apply read_only_raise|apply read_only_raise
                 |apply read_only_ret|apply read_only_raise].
  - intros loss. apply read_only_preserves_layers, read_only_ret.
Defined.

(** C9: for all values of [W], [b] and [x] of the declared shapes, the
    program is feasible ([z = max(W x + b, 0)] with [Wtilde = W] meets the
    constraints), its objective is at least 0 everywhere, the solve returns
    an optimum, and the adapter never raises the infeasible-or-unbounded
    error, whatever it is called on. *)
Theorem relu_program_always_solvable input_dim output_dim p :
  parameters_shaped input_dim output_dim p →
  feasible input_dim output_dim p (relu_solution p)
  ∧ (∀ v, (0 <= objective p v)%R)
  ∧ (∃ v, solve input_dim output_dim p = Ok v)
  ∧ ∀ Wt bt xt, CvxpyLayer input_dim output_dim Wt bt xt ≠ Raise SolverError.
Proof.
  intros Hp. split; [by apply relu_solution_feasible|].
  split; [apply objective_nonneg|].
  split; [exists (relu_solution p); by apply solve_relu|].
  apply CvxpyLayer_no_solver_error.
Qed.

Lemma relu_program_always_solvable_witness :
  parameters_shaped 1 2 (Parameters [[1%R]; [-1]%R] [0%R; 0%R] [2%R])
  ∧ feasible 1 2 (Parameters [[1%R]; [-1]%R] [0%R; 0%R] [2%R])
      (relu_solution (Parameters [[1%R]; [-1]%R] [0%R; 0%R] [2%R])).
Proof.
  assert (Hp : parameters_shaped 1 2 (Parameters [[1%R]; [-1]%R] [0%R; 0%R] [2%R])).
  { split; [split; [reflexivity | repeat constructor] | split; reflexivity]. }
  split; [exact Hp|].
  apply (relu_program_always_solvable 1 2 _ Hp).
Defined.

(** * Further properties of the notebook's code *)

(** ** The program *)

Section Projection.
Local Open Scope R_scope.

(** One coordinate of the projection inequality. *)
Lemma relu_coordinate_gap (t u c : R) :
  0 <= t →
  (Rmax (u + c) 0 - u - c) * (Rmax (u + c) 0 - u - c)
  + (t - Rmax (u + c) 0) * (t - Rmax (u + c) 0)
  <= (t - u - c) * (t - u - c).
Proof.
  intros Ht. unfold Rmax. destruct (Rle_dec (u + c) 0) as [H|H].
  - assert (0 <= t * - (u + c)) by (apply Rmult_le_pos; lra). lra.
  - lra.
Qed.

Lemma relu_residual_gap (t u c : list R) :
  length u = length t → length c = length t →
  Forall (λ a, 0 <= a) t →
  sum_squares (vsub (vsub (relu (vadd u c)) u) c)
  + sum_squares (vsub t (relu (vadd u c)))
  <= sum_squares (vsub (vsub t u) c).
Proof.
  revert u c. induction t as [|a t IH]; intros [|u0 u] [|c0 c] Hu Hc Hpos;
    simpl in *; try discriminate.
  - unfold sum_squares. simpl. lra.
  - inversion Hpos as [|? ? Ha Hpos']; subst.
    injection Hu as Hu. injection Hc as Hc.
    specialize (IH u c Hu Hc Hpos').
    pose proof (relu_coordinate_gap a u0 c0 Ha).
    unfold sum_squares in *; simpl. lra.
Qed.

(** One coordinate of the optimal value. *)
Lemma relu_coordinate_value (u c : R) :
  (Rmax (u + c) 0 - u - c) * (Rmax (u + c) 0 - u - c)
  = Rmin (u + c) 0 * Rmin (u + c) 0.
Proof.
  unfold Rmax, Rmin. destruct (Rle_dec (u + c) 0); lra.
Qed.

Lemma relu_residual_value (u c : list R) :
  length c = length u →
  sum_squares (vsub (vsub (relu (vadd u c)) u) c)
  = sum_squares (negative_part (vadd u c)).
Proof.
  revert c. induction u as [|u0 u IH]; intros [|c0 c] Hc;
    simpl in *; try discriminate; [done|].
  injection Hc as Hc. specialize (IH c Hc).
  pose proof (relu_coordinate_value u0 c0).
  unfold sum_squares in *; simpl. lra.
Qed.
End Projection.

(** X2: the closed form is the projection of [W x + b] on the nonnegative
    vectors.  A feasible point's objective exceeds the optimal one by at least
    the squared distance of its [z] to [max(W x + b, 0)]; a feasible point
    that is nearly optimal is therefore near the ReLU. *)
Theorem feasible_point_distance_to_relu input_dim output_dim p v :
  parameters_shaped input_dim output_dim p →
  feasible input_dim output_dim p v →
  (objective p (relu_solution p)
   + sum_squares (vsub (z v) (relu (vadd (matvec (W p) (x p)) (b p))))
   <= objective p v)%R.
Proof.
  intros ([HW _] & Hb & _) ((Hz & _) & Hpos & HWt).
  unfold objective, is_vector in *. rewrite HWt. simpl.
  apply relu_residual_gap; [rewrite length_matvec| |exact Hpos]; lia.
Qed.

Lemma feasible_point_distance_to_relu_witness :
  feasible 1 2 (Parameters [[1%R]; [-1]%R] [0%R; 0%R] [2%R])
    (Variables [3%R; 1%R] [[1%R]; [-1]%R])
  ∧ (objective (Parameters [[1%R]; [-1]%R] [0%R; 0%R] [2%R])
       (relu_solution (Parameters [[1%R]; [-1]%R] [0%R; 0%R] [2%R]))
     + sum_squares
         (vsub [3%R; 1%R]
            (relu (vadd (matvec [[1%R]; [-1]%R] [2%R]) [0%R; 0%R])))
     <= objective (Parameters [[1%R]; [-1]%R] [0%R; 0%R] [2%R])
          (Variables [3%R; 1%R] [[1%R]; [-1]%R]))%R.
Proof.
  assert (Hf : feasible 1 2 (Parameters [[1%R]; [-1]%R] [0%R; 0%R] [2%R])
                 (Variables [3%R; 1%R] [[1%R]; [-1]%R])).
  { split; [split; [reflexivity | split; [reflexivity | repeat constructor]]|].
    split; [|reflexivity]. simpl. repeat constructor; lra. }
  split; [exact Hf|].
  apply (feasible_point_distance_to_relu 1 2
           (Parameters [[1%R]; [-1]%R] [0%R; 0%R] [2%R])
           (Variables [3%R; 1%R] [[1%R]; [-1]%R])); [|exact Hf].
  split; [split; [reflexivity | repeat constructor] | split; reflexivity].
Defined.

(** X3: the optimal value of the program is the sum of squares of the
    negative part of [W x + b]: what the constraint [z >= 0] keeps the
    residual from cancelling.  It is 0 exactly when nothing is cut off. *)
Theorem optimal_value_is_negative_part input_dim output_dim p v :
  parameters_shaped input_dim output_dim p →
  optimal input_dim output_dim p v →
  objective p v = sum_squares (negative_part (vadd (matvec (W p) (x p)) (b p))).
Proof.
  intros Hp Hv. rewrite (optimal_is_relu_solution _ _ _ _ Hp Hv).
  destruct Hp as ([HW _] & Hb & _). unfold objective, is_vector in *. simpl.
  apply relu_residual_value. rewrite length_matvec. lia.
Qed.

Lemma optimal_value_is_negative_part_witness :
  optimal 1 2 (Parameters [[1%R]; [-1]%R] [0%R; 0%R] [2%R])
    (relu_solution (Parameters [[1%R]; [-1]%R] [0%R; 0%R] [2%R]))
  ∧ objective (Parameters [[1%R]; [-1]%R] [0%R; 0%R] [2%R])
      (relu_solution (Parameters [[1%R]; [-1]%R] [0%R; 0%R] [2%R]))
    = sum_squares
        (negative_part (vadd (matvec [[1%R]; [-1]%R] [2%R]) [0%R; 0%R])).
Proof.
  assert (Hp : parameters_shaped 1 2 (Parameters [[1%R]; [-1]%R] [0%R; 0%R] [2%R])).
  { split; [split; [reflexivity | repeat constructor] | split; reflexivity]. }
  pose proof (relu_solution_optimal 1 2 _ Hp) as Ho.
  split; [exact Ho|].
  apply (optimal_value_is_negative_part 1 2 _ _ Hp Ho).
Defined.

(** ** The batched call *)

(** The batched call on at least one row is the adapter on the stacks of
    copies, whatever the rows are. *)
Lemma call_batched_adapter w self input_dim output_dim W0 b0 xs :
  relu_layer w self input_dim output_dim W0 b0 → xs ≠ [] →
  call self (T2 xs) w
  = (let* out := lift (CvxpyLayer input_dim output_dim
                         (T3 (replicate (length xs) W0))
                         (T2 (replicate (length xs) b0)) (T2 xs)) in
     subscript out 0) w.
Proof.
  intros Hl Hne.
  destruct (batched_arguments_replicate _ _ _ _ _ _ (length xs) Hl)
    as (Wt & bt & Hargs & HWt & Hbt).
  destruct Hl as (attrs & iW & ib & Ho & _ & _ & Hf & _).
  unfold call. rewrite decide_True by done. simpl shape0.
  rewrite (bind_ok _ _ _ _ _ (getattr_lookup _ _ _ _ _ Ho Hf)).
  rewrite (bind_ok _ _ _ _ _ Hargs).
  destruct xs as [|x0 xs']; [done|].
  change (length (x0 :: xs')) with (S (length xs')) in *.
  rewrite stack_replicate_T2 in HWt. rewrite stack_replicate_T1 in Hbt.
  injection HWt as <-. injection Hbt as <-. done.
Qed.

(** X4: the call on two batches joined is the join of the calls on each:
    a batch can be split and the outputs put together again. *)
Theorem call_on_joined_batches w self input_dim output_dim W0 b0 xs ys :
  relu_layer w self input_dim output_dim W0 b0 →
  Forall (is_vector input_dim) xs → Forall (is_vector input_dim) ys →
  xs ≠ [] → ys ≠ [] →
  ∃ rows1 rows2,
    call self (T2 xs) w = (Ok (T2 rows1), w)
    ∧ call self (T2 ys) w = (Ok (T2 rows2), w)
    ∧ call self (T2 (xs ++ ys)) w = (Ok (T2 (rows1 ++ rows2)), w).
Proof.
  intros Hl Hxs Hys Hnx Hny.
  exists (map (relu_forward W0 b0) xs), (map (relu_forward W0 b0) ys).
  split; [by apply (call_batched _ _ _ _ _ _ _ Hl)|].
  split; [by apply (call_batched _ _ _ _ _ _ _ Hl)|].
  rewrite <- map_app. apply (call_batched _ _ _ _ _ _ _ Hl).
  - by apply Forall_app.
  - by destruct xs.
Qed.

Lemma call_on_joined_batches_witness :
  ∃ rows1 rows2,
    call 0 (T2 [[1%R]]) example_world = (Ok (T2 rows1), example_world)
    ∧ call 0 (T2 [[2%R]; [3%R]]) example_world = (Ok (T2 rows2), example_world)
    ∧ call 0 (T2 ([[1%R]] ++ [[2%R]; [3%R]])) example_world
      = (Ok (T2 (rows1 ++ rows2)), example_world).
Proof.
  apply (call_on_joined_batches example_world 0 1 2 example_W example_b
           [[1%R]] [[2%R]; [3%R]]).
  - apply example_relu_layer.
  - repeat constructor.
  - repeat constructor.
  - discriminate.
  - discriminate.
Defined.

(** X5: a batch with no rows is not answered with an empty output: both
    stacks are then [tf.stack([])], an empty vector, which is not a value for
    [W], and the call raises, leaving the state as it was. *)
Theorem call_on_empty_batch_raises w self input_dim output_dim W0 b0 :
  relu_layer w self input_dim output_dim W0 b0 →
  ∃ e, call self (T2 []) w = (Raise e, w).
Proof.
  intros Hl. exists ValueError. by apply (call_empty_batch _ _ _ _ _ _ Hl).
Qed.

Lemma call_on_empty_batch_raises_witness :
  ∃ e, call 0 (T2 []) example_world = (Raise e, example_world).
Proof.
  apply (call_on_empty_batch_raises example_world 0 1 2 example_W example_b).
  apply example_relu_layer.
Defined.

(** X12: replacing one row of a batch changes that row of the output and no
    other: the batch elements do not influence one another. *)
Theorem call_rows_do_not_interact w self input_dim output_dim W0 b0 xs j x1 :
  relu_layer w self input_dim output_dim W0 b0 →
  Forall (is_vector input_dim) xs → is_vector input_dim x1 → xs ≠ [] →
  ∃ rows,
    call self (T2 xs) w = (Ok (T2 rows), w)
    ∧ call self (T2 (<[j := x1]> xs)) w
      = (Ok (T2 (<[j := relu_forward W0 b0 x1]> rows)), w).
Proof.
  intros Hl Hxs Hx1 Hne. exists (map (relu_forward W0 b0) xs).
  split; [by apply (call_batched _ _ _ _ _ _ _ Hl)|].
  change (map (relu_forward W0 b0) xs) with (relu_forward W0 b0 <$> xs).
  rewrite <- list_fmap_insert.
  apply (call_batched _ _ _ _ _ _ _ Hl).
  - by apply Forall_insert.
  - intros Hnil. apply (f_equal length) in Hnil.
    rewrite length_insert in Hnil. by destruct xs.
Qed.

Lemma call_rows_do_not_interact_witness :
  ∃ rows,
    call 0 (T2 [[1%R]; [2%R]]) example_world = (Ok (T2 rows), example_world)
    ∧ call 0 (T2 (<[1 := [5%R]]> [[1%R]; [2%R]])) example_world
      = (Ok (T2 (<[1 := relu_forward example_W example_b [5%R]]> rows)),
         example_world).
Proof.
  apply (call_rows_do_not_interact example_world 0 1 2 example_W example_b
           [[1%R]; [2%R]] 1 [5%R]).
  - apply example_relu_layer.
  - repeat constructor.
  - reflexivity.
  - discriminate.
Defined.

(** X13: a batch with a row whose length is not [input_dim] is refused as a
    whole: the call raises [ValueError] and returns no row, not even for the
    rows that fit. *)
Theorem call_on_wrong_width_raises w self input_dim output_dim W0 b0 xs j xj :
  relu_layer w self input_dim output_dim W0 b0 →
  xs !! j = Some xj → length xj ≠ input_dim →
  call self (T2 xs) w = (Raise ValueError, w).
Proof.
  intros Hl Hj Hlen.
  assert (Hne : xs ≠ []) by (intros ->; done).
  rewrite (call_batched_adapter _ _ _ _ _ _ xs Hl Hne).
  apply bind_raise. unfold lift, CvxpyLayer. f_equal.
  rewrite batch_parameters_replicate.
  rewrite decide_False; [done|].
  intros (_ & _ & Hps).
  assert (Hmj : (Parameters W0 b0 <$> xs) !! j = Some (Parameters W0 b0 xj))
    by (by rewrite list_lookup_fmap, Hj).
  pose proof (Forall_lookup_1 _ _ _ _ Hps Hmj) as (_ & _ & Hx).
  by apply Hlen.
Qed.

Lemma call_on_wrong_width_raises_witness :
  call 0 (T2 [[1%R]; [2%R; 3%R]]) example_world = (Raise ValueError, example_world).
Proof.
  apply (call_on_wrong_width_raises example_world 0 1 2 example_W example_b
           [[1%R]; [2%R; 3%R]] 1 [2%R; 3%R]).
  - apply example_relu_layer.
  - reflexivity.
  - simpl. lia.
Defined.

(** ** The constructor *)

Lemma constructed_layer_weights normal_sample input_dim output_dim w self p :
  layer_weights w self = Some p →
  layer_weights (constructed normal_sample input_dim output_dim w) self = Some p.
Proof.
  unfold layer_weights, constructed.
  destruct (next_seed (rng w)) as [src1 g1].
  destruct (next_seed g1) as [src2 g2]. simpl.
  destruct (objects w !! self) as [attrs|] eqn:Ho; [|done].
  rewrite (lookup_app_l_Some _ _ _ _ Ho). simpl.
  destruct (attrs !! "W") as [[iW|? ?]|]; simpl; [|done|done].
  destruct (attrs !! "b") as [[ib|? ?]|]; simpl; [|done|done].
  destruct (tf_variables w !! iW) as [Wt|] eqn:HW; [|done].
  rewrite (lookup_app_l_Some _ _ _ _ HW). simpl.
  destruct (tf_variables w !! ib) as [bt|] eqn:Hb; [|done].
  by rewrite (lookup_app_l_Some _ _ _ _ Hb).
Qed.

(** X9: [ReluLayer(input_dim, output_dim)] with two positive dimensions
    returns, without printing, an object that did not exist, with a weight of
    shape (output_dim, input_dim) and a bias of shape (output_dim,) in two new
    variables, and leaves the weight and the bias of every layer made before
    as they were. *)
Theorem constructor_makes_fresh_layer normal_sample input_dim output_dim w :
  input_dim ≠ 0 → output_dim ≠ 0 →
  ∃ self w' W0 b0,
    ReluLayer normal_sample input_dim output_dim w = (Ok self, w')
    ∧ objects w !! self = None
    ∧ layer_weights w' self = Some (T2 W0, T1 b0)
    ∧ is_matrix output_dim input_dim W0 ∧ is_vector output_dim b0
    ∧ length (tf_variables w') = length (tf_variables w) + 2
    ∧ stdout w' = stdout w
    ∧ ∀ other p, layer_weights w other = Some p → layer_weights w' other = Some p.
Proof.
  intros Hi Ho.
  pose proof (constructed_relu_layer normal_sample input_dim output_dim w) as Hl.
  eexists (length (objects w)), (constructed normal_sample input_dim output_dim w), _, _.
  split; [by apply ReluLayer_constructed|].
  split; [by apply lookup_ge_None|].
  split; [exact (relu_layer_weights _ _ _ _ _ _ Hl)|].
  split; [apply initial_W_matrix|]. split; [apply initial_b_vector|].
  split; [|split].
  - unfold constructed.
    destruct (next_seed (rng w)) as [src1 g1].
    destruct (next_seed g1) as [src2 g2]. simpl.
    by rewrite length_app.
  - unfold constructed.
    destruct (next_seed (rng w)) as [src1 g1].
    by destruct (next_seed g1) as [src2 g2].
  - intros other p. apply constructed_layer_weights.
Qed.

Lemma constructor_makes_fresh_layer_witness :
  ∃ self w' W0 b0,
    ReluLayer example_sample 2 1 example_world = (Ok self, w')
    ∧ objects example_world !! self = None
    ∧ layer_weights w' self = Some (T2 W0, T1 b0)
    ∧ is_matrix 1 2 W0 ∧ is_vector 1 b0
    ∧ length (tf_variables w') = length (tf_variables example_world) + 2
    ∧ stdout w' = stdout example_world
    ∧ ∀ other p, layer_weights example_world other = Some p
                 → layer_weights w' other = Some p.
Proof.
  apply (constructor_makes_fresh_layer example_sample 2 1 example_world); lia.
Defined.

(** X14: with a dimension that is 0 the constructor raises [ValueError] and
    returns no layer: cvxpy refuses the shape of the first variable or
    parameter that has the dimension.  By then the two [tf.Variable]s of the
    layer have been made. *)
Theorem constructor_refuses_zero_dimension normal_sample input_dim output_dim w :
  input_dim = 0 ∨ output_dim = 0 →
  (ReluLayer normal_sample input_dim output_dim w).1 = Raise ValueError
  ∧ length (tf_variables (ReluLayer normal_sample input_dim output_dim w).2)
    = length (tf_variables w) + 2.
Proof.
  intros Hzero.
  unfold ReluLayer, cp_leaf, bind, new_object, random_normal, new_variable,
    setattr, ret, raise, with_objects, with_tf_variables, with_rng. simpl.
  destruct (next_seed (rng w)) as [src1 g1]. simpl.
  destruct (next_seed g1) as [src2 g2]. simpl.
  assert (Hlen : length ((tf_variables w
                   ++ [T2 (map (map (Rmult (/ 1000)))
                         (map (λ i, map (λ j, normal_sample src1 (i * input_dim + j))
                                        (seq 0 input_dim)) (seq 0 output_dim)))])
                   ++ [T1 (map (Rmult (/ 1000))
                             (map (normal_sample src2) (seq 0 output_dim)))])
                 = length (tf_variables w) + 2)
    by (rewrite !length_app; simpl; lia).
  repeat case_decide; simpl; try (split; [done | exact Hlen]).
  exfalso.
  repeat match goal with H : Forall _ (_ :: _) |- _ => inversion H; clear H; subst end.
  destruct Hzero; done.
Qed.

Lemma constructor_refuses_zero_dimension_witness :
  (ReluLayer example_sample 3 0 empty_world).1 = Raise ValueError
  ∧ length (tf_variables (ReluLayer example_sample 3 0 empty_world).2)
    = length (tf_variables empty_world) + 2.
Proof.
  apply (constructor_refuses_zero_dimension example_sample 3 0 empty_world).
  by right.
Defined.

(** ** The model *)

(** X10: the model applies its layers one after the other.  On a batch of at
    least one row, what the dense layer is called on is, row by row, the
    positive part of [W2 h + b2] for [h] the positive part of [W1 x + b1];
    the two [ReluLayer]s change nothing on the way. *)
Theorem model_composes_layers
  dense w l1 l2 input_dim hidden_dim output_dim W1 b1 W2 b2 xs :
  relu_layer w l1 input_dim hidden_dim W1 b1 →
  relu_layer w l2 hidden_dim output_dim W2 b2 →
  Forall (is_vector input_dim) xs → xs ≠ [] →
  model dense l1 l2 (T2 xs) w
  = dense (T2 (map (λ x0, relu_forward W2 b2 (relu_forward W1 b1 x0)) xs)) w.
Proof.
  intros Hl1 Hl2 Hxs Hne.
  pose proof Hl1 as (?&?&?&_&_&_&_&_&_&_&HW1&Hb1).
  pose proof (relu_forward_vectors _ _ _ _ xs HW1 Hb1) as Hh1.
  assert (Hh1ne : map (relu_forward W1 b1) xs ≠ []) by (by destruct xs).
  unfold model.
  rewrite (bind_ok _ _ _ _ _ (call_batched _ _ _ _ _ _ _ Hl1 Hxs Hne)).
  rewrite (bind_ok _ _ _ _ _ (call_batched _ _ _ _ _ _ _ Hl2 Hh1 Hh1ne)).
  by rewrite map_map.
Qed.

Lemma model_composes_layers_witness :
  model example_dense 0 1 (T2 [[1%R]; [2%R]]) example_world2
  = example_dense
      (T2 (map (λ x0, relu_forward example_W2 example_b2
                        (relu_forward example_W example_b x0))
               [[1%R]; [2%R]])) example_world2.
Proof.
  apply (model_composes_layers example_dense example_world2 0 1 1 2 1
           example_W example_b example_W2 example_b2 [[1%R]; [2%R]]).
  - apply example_relu_layers.
  - apply example_relu_layers.
  - repeat constructor.
  - discriminate.
Defined.

(** ** The training loop on data it cannot use *)

Lemma for_range_raises n body w e w' :
  body w = (Raise e, w') → for_range (S n) body w = (Raise e, w').
Proof. intros H. simpl. by apply bind_raise. Qed.

(** X6: with data [X] that has no rows, [1 / X.shape[0]] divides by zero.
    The loop raises [ZeroDivisionError] in its first iteration, before the
    model is called: nothing is printed, no variable is written, and neither
    the model nor the optimizer is reached.  ([X] is not a scalar, which has
    no [X.shape[0]].) *)
Theorem training_on_no_rows_divides_by_zero
  dense tape_gradient apply_gradients l1 l2 X Y w :
  rank X ≠ 0 → shape0 X = 0 →
  training_loop dense tape_gradient apply_gradients l1 l2 X Y w
  = (Raise ZeroDivisionError, w).
Proof.
  intros _ Hrows. unfold training_loop. apply for_range_raises.
  unfold training_step. apply bind_raise.
  unfold loss_and_gradients. apply bind_raise.
  unfold lift, reciprocal. by rewrite Hrows.
Qed.

Lemma training_on_no_rows_divides_by_zero_witness :
  training_loop example_dense example_gradient example_apply_gradients 0 1
    (T2 []) (T2 []) example_world2
  = (Raise ZeroDivisionError, example_world2).
Proof.
  apply (training_on_no_rows_divides_by_zero example_dense example_gradient
           example_apply_gradients 0 1 (T2 []) (T2 []) example_world2).
  - discriminate.
  - reflexivity.
Defined.

(** X11: with data [X] that is a single input vector rather than a batch,
    the loop raises [AttributeError] in its first iteration, when the model
    calls its first layer: nothing is printed and no variable is written,
    whatever the dense layer, the tape and the optimizer would do. *)
Theorem training_on_one_vector_raises
  dense tape_gradient apply_gradients w l1 l2 input_dim output_dim W1 b1 x0 Y :
  relu_layer w l1 input_dim output_dim W1 b1 →
  x0 ≠ [] →
  training_loop dense tape_gradient apply_gradients l1 l2 (T1 x0) Y w
  = (Raise (AttributeError "layer"), w).
Proof.
  intros Hl Hne. unfold training_loop. apply for_range_raises.
  unfold training_step. apply bind_raise.
  unfold loss_and_gradients.
  rewrite (bind_ok _ _ _ (1 / INR (length x0))%R w).
  2:{ unfold lift, reciprocal. simpl. rewrite decide_False; [done|].
      by destruct x0. }
  apply bind_raise. unfold model. apply bind_raise.
  by apply (call_unbatched _ _ _ _ _ _ _ Hl).
Qed.

Lemma training_on_one_vector_raises_witness :
  training_loop example_dense example_gradient example_apply_gradients 0 1
    (T1 [1%R]) (T2 [[0%R]]) example_world2
  = (Raise (AttributeError "layer"), example_world2).
Proof.
  apply (training_on_one_vector_raises example_dense example_gradient
           example_apply_gradients example_world2 0 1 1 2
           example_W example_b [1%R] (T2 [[0%R]])).
  - apply example_relu_layers.
  - discriminate.
Defined.

(** ** The loss *)

Section Loss.
Local Open Scope R_scope.

Lemma vsum_sum_squares_nonneg rows : 0 <= vsum (map sum_squares rows).
Proof.
  induction rows as [|r rows IH]; simpl; [lra|].
  pose proof (sum_squares_nonneg r). lra.
Qed.

Lemma reduce_sum_square_nonneg d : 0 <= reduce_sum (square d).
Proof.
  destruct d as [r|v|rows|slices]; simpl.
  - pose proof (Rle_0_sqr r) as H. unfold Rsqr in H. exact H.
  - apply sum_squares_nonneg.
  - rewrite map_map. apply vsum_sum_squares_nonneg.
  - rewrite map_map. induction slices as [|m slices IH]; simpl; [lra|].
    rewrite map_map. pose proof (vsum_sum_squares_nonneg m).
    unfold sum_squares in *. lra.
Qed.

End Loss.

(** X7: a loss is never negative: whatever the tensors [Y] and [model(X)]
    are, if the loss is computed at all it is a scalar that is at least 0. *)
Theorem loss_is_nonnegative n c Y pred t :
  reciprocal n = Ok c → loss_of c Y pred = Ok t →
  ∃ r, t = T0 r ∧ (0 <= r)%R.
Proof.
  unfold reciprocal, loss_of. intros Hc Ht.
  case_decide as Hn; [done|]. injection Hc as <-.
  destruct (tsub Y pred) as [d|e]; [|done]. simpl in Ht. injection Ht as <-.
  eexists. split; [done|].
  apply Rmult_le_pos; [|apply reduce_sum_square_nonneg].
  apply Rlt_le, Rdiv_lt_0_compat; [lra|].
  apply lt_0_INR. lia.
Qed.

Lemma loss_is_nonnegative_witness :
  ∃ r, T0 (1 / INR 2 * reduce_sum (square (T2 [[1 - 0]; [0 - 2]])))%R = T0 r
       ∧ (0 <= r)%R.
Proof.
  apply (loss_is_nonnegative 2 (1 / INR 2)%R (T2 [[1%R]; [0%R]]) (T2 [[0%R]; [2%R]])).
  - reflexivity.
  - reflexivity.
Defined.
